(** * pycram: process-module dispatch and the Giskard interface

    A shallow embedding of
    - [pycram/external_interfaces/giskard.py] (belief-state management,
      goal achievement, collision policies, ROS message builders), and
    - [pycram/process_modules/hsrb_process_modules.py] and
      [pycram/process_modules/donbot_process_modules.py] (the process
      modules of the HSRB and the managers that select them).

    Python functions that talk to Giskard are functions in a small monad
    that threads the state of the [GiskardWrapper] and stops at the first
    raised exception, keeping the state reached so far. *)

From Stdlib Require PrimFloat.
From Stdlib Require Import Ascii.
From stdpp Require Import gmap strings list pretty.

Local Open Scope string_scope.
Local Open Scope list_scope.
Local Open Scope stdpp_scope.

(** ** Python values and errors *)

(** Python's [float] is an IEEE 754 binary64 number. *)
Abbreviation float := PrimFloat.float.

(** The exceptions the modelled code can raise.  [PlanFailure] stands for
    the typed failures of [pycram.plan_failures]. *)
Inductive PyError : Type :=
  | NameError (variable : string)
  | IndexError
  | AttributeError (attribute : string)
  | FileNotFoundError (filename : string)
  | PlanFailure (failure : string).

(** What a call does: it returns a value or raises. *)
Inductive Outcome (A : Type) : Type :=
  | Returned (value : A)
  | Raised (error : PyError).
Arguments Returned {A} value.
Arguments Raised {A} error.

(** [l[i]] on a Python list, for a constant index [i >= 0]. *)
Definition subscript {A : Type} (l : list A) (i : nat) : Outcome A :=
  match l !! i with
  | Some x => Returned x
  | None => Raised IndexError
  end.

(** Truth value of an optional dictionary: [None] and [{}] are false. *)
Definition truthy {V : Type} (d : option (gmap string V)) : bool :=
  match d with
  | Some m => negb (bool_decide (m = ∅))
  | None => false
  end.

(** ** The World Model ([pycram.bullet_world]) *)

(** Modelled from the spec: the enum [ObjectType] of [pycram.enums] is not
    part of the sources at hand; these are the members the process modules
    name together with the type tags of a Body (robot, environment,
    movable object). *)
Inductive ObjectType : Type :=
  | ROBOT
  | ENVIRONMENT
  | GENERIC_OBJECT
  | JEROEN_CUP
  | BOWL.

Global Instance ObjectType_eq_dec : EqDecision ObjectType.
Proof. solve_decision. Defined.

(** A BulletWorld [Object]: the attributes the modelled code reads.
    [pose] is what [get_position_and_orientation()] returns. *)
Module Object.
Record t : Type := mk {
  name : string;
  id : Z;
  path : string;
  type : ObjectType;
  pose : list float * list float
}.
End Object.

(** [BulletWorld.current_bullet_world.objects], [BulletWorld.robot] (which
    is [None] until a robot is spawned) and the joint configuration of the
    robot. *)
Record BulletWorld : Type := mkBulletWorld {
  objects : list Object.t;
  robot : option Object.t;
  joint_states : gmap string float
}.

(** [obj == BulletWorld.robot].  [Object] compares by identity; in a
    BulletWorld an object is identified by its name and id. *)
Definition is_robot (w : BulletWorld) (obj : Object.t) : bool :=
  match robot w with
  | Some r => bool_decide (Object.name obj = Object.name r ∧ Object.id obj = Object.id r)
  | None => false
  end.

(** [obj.name + "_" + str(obj.id)], the name of an object in Giskard. *)
Definition giskard_name (obj : Object.t) : string :=
  Object.name obj +:+ "_" +:+ pretty (Object.id obj).

(** ** ROS messages *)

Record Header : Type := mkHeader { stamp : Z; frame_id : string }.

Record PoseStamped : Type := mkPoseStamped {
  pose_header : Header;
  position : float * float * float;
  orientation : float * float * float * float
}.

Record PointStamped : Type := mkPointStamped {
  point_header : Header;
  point : float * float * float
}.

Record QuaternionStamped : Type := mkQuaternionStamped {
  quaternion_header : Header;
  quaternion : float * float * float * float
}.

Record Vector3Stamped : Type := mkVector3Stamped {
  vector_header : Header;
  vector : float * float * float
}.

Inductive WorldBodyType : Type := PRIMITIVE_BODY | URDF_BODY | MESH_BODY.

Record WorldBody : Type := mkWorldBody {
  body_type : WorldBodyType;
  urdf : string
}.

(** [WorldBody()]: a message with default fields. *)
Definition new_WorldBody : WorldBody :=
  {| body_type := PRIMITIVE_BODY; urdf := "" |}.

(** [body.type = t] and [body.urdf = u]. *)
Definition set_body_type (t : WorldBodyType) (body : WorldBody) : WorldBody :=
  {| body_type := t; urdf := urdf body |}.

Definition set_urdf (u : string) (body : WorldBody) : WorldBody :=
  {| body_type := body_type body; urdf := u |}.

(** Modelled from the spec: [MoveResult] of [giskard_msgs] is not part of
    the sources; the terminal result of a goal is one of succeeded,
    failed(reason), rejected(reason). *)
Inductive MoveResult : Type :=
  | Succeeded
  | Failed (reason : string)
  | Rejected (reason : string).

(** ** The Giskard wrapper *)

(** The calls the modelled code makes on [giskard_wrapper]. *)
Inductive GiskardCall : Type :=
  | GetGroupNames
  | ClearWorld
  | AddUrdf (name urdf_string : string) (pose : PoseStamped)
  | AddMesh (name mesh_path : string) (pose : PoseStamped)
  | RemoveGroup (name : string)
  | UpdateGroupPose (name : string) (pose : PoseStamped)
  | SetJointGoal (goal_poses : gmap string float)
  | SetCartGoal (goal : PoseStamped) (tip_link root_link : string)
  | SetStraightCartGoal (goal : PoseStamped) (tip_link root_link : string)
  | SetTranslationGoal (goal : PointStamped) (tip_link root_link : string)
  | SetStraightTranslationGoal (goal : PointStamped) (tip_link root_link : string)
  | SetRotationGoal (goal : QuaternionStamped) (tip_link root_link : string)
  | SetAlignPlanesGoal (goal_normal : Vector3Stamped) (tip_link : string)
      (tip_normal : Vector3Stamped) (root_link : string)
  | SetOpenContainerGoal (tip_link environment_link : string)
  | SetCloseContainerGoal (tip_link environment_link : string)
  | PlanAndExecute
  | AvoidAllCollisions
  | AllowSelfCollision
  | AvoidCollision (min_distance : Z) (group1 group2 : string).

(** Calls that change the belief state. *)
Definition is_mutation (c : GiskardCall) : bool :=
  match c with
  | ClearWorld | AddUrdf _ _ _ | AddMesh _ _ _ | RemoveGroup _ | UpdateGroupPose _ _ => true
  | _ => false
  end.

(** Calls that set the collision policy of the next goal. *)
Definition is_collision_policy (c : GiskardCall) : bool :=
  match c with
  | AvoidAllCollisions | AllowSelfCollision | AvoidCollision _ _ _ => true
  | _ => false
  end.

(** Calls that submit a goal description. *)
Definition is_goal (c : GiskardCall) : bool :=
  match c with
  | SetJointGoal _ | SetCartGoal _ _ _ | SetStraightCartGoal _ _ _
  | SetTranslationGoal _ _ _ | SetStraightTranslationGoal _ _ _
  | SetRotationGoal _ _ _ | SetAlignPlanesGoal _ _ _ _
  | SetOpenContainerGoal _ _ | SetCloseContainerGoal _ _ => true
  | _ => false
  end.

(** The state behind [giskard_wrapper]: the group names of the belief
    state and the calls received so far, oldest first. *)
Record Giskard : Type := mkGiskard {
  group_names : list string;
  calls : list GiskardCall
}.

(** A Python computation over the Giskard wrapper. *)
Definition Py (A : Type) : Type := Giskard → Outcome A * Giskard.

Global Instance Py_ret : MRet Py := λ A v s, (Returned v, s).

Global Instance Py_bind : MBind Py := λ A B f m s,
  match m s with
  | (Returned v, s') => f v s'
  | (Raised e, s') => (Raised e, s')
  end.

(** [raise e]. *)
Definition raise {A : Type} (e : PyError) : Py A := λ s, (Raised e, s).

(** An expression that may raise, evaluated without touching Giskard. *)
Definition eval {A : Type} (o : Outcome A) : Py A := λ s, (o, s).

(** The wrapper receives call [c]. *)
Definition call (c : GiskardCall) : Py unit :=
  λ s, (Returned tt, {| group_names := group_names s; calls := calls s ++ [c] |}).

(** [for x in l: body(x)]. *)
Fixpoint for_each {A : Type} (l : list A) (body : A → Py unit) : Py unit :=
  match l with
  | [] => mret tt
  | x :: l' => body x;; for_each l' body
  end.

(** [list(map(f, l))] for an [f] that may raise. *)
Fixpoint list_map {A B : Type} (f : A → Py B) (l : list A) : Py (list B) :=
  match l with
  | [] => mret []
  | x :: l' => y ← f x; ys ← list_map f l'; mret (y :: ys)
  end.

Global Instance Outcome_ret : MRet Outcome := λ A v, Returned v.

Global Instance Outcome_bind : MBind Outcome := λ A B f o,
  match o with
  | Returned v => f v
  | Raised e => Raised e
  end.

(** Reading a local variable of an enclosing function from inside a
    lambda: the variable is a cell that holds nothing until the assignment
    that binds it has completed. *)
Definition load_deref {A : Type} (variable : string) (cell : option A) : Py A :=
  match cell with
  | Some v => mret v
  | None => raise (NameError variable)
  end.

(** [UpdateWorldResponse] of [giskard_msgs]; the modelled code never
    inspects it. *)
Definition UpdateWorldResponse : Type := unit.

Section GiskardInterface.

(** What the code takes from its surroundings:
    - [robot_description.i.name], the name of the robot;
    - the groups of the world that [giskard_wrapper.clear_world()]
      resets the belief state to;
    - the readable files and their contents;
    - the time [rospy.Time.now()] reads, which goes into the stamps of
      the messages and nowhere else;
    - the terminal result the planner gives after the calls it has
      received. *)
Variable robot_name : string.
Variable launch_groups : list string.
Variable files : gmap string string.
Variable now : Z.
Variable planner : list GiskardCall → MoveResult.

(** *** Methods of [GiskardWrapper]

    The contract of the remote planning service: belief-state queries
    and mutations, goal calls followed by a blocking
    [plan_and_execute()], and collision-policy calls. *)

Definition get_group_names : Py (list string) :=
  λ s, (Returned (group_names s),
        {| group_names := group_names s; calls := calls s ++ [GetGroupNames] |}).

Definition clear_world : Py unit :=
  λ s, (Returned tt,
        {| group_names := launch_groups; calls := calls s ++ [ClearWorld] |}).

(** A name that is already a group is not added a second time. *)
Definition add_group (name : string) (groups : list string) : list string :=
  if bool_decide (name ∈ groups) then groups else groups ++ [name].

Definition add_urdf (name urdf_string : string) (pose : PoseStamped)
  : Py UpdateWorldResponse :=
  λ s, (Returned tt,
        {| group_names := add_group name (group_names s);
           calls := calls s ++ [AddUrdf name urdf_string pose] |}).

Definition add_mesh (name mesh_path : string) (pose : PoseStamped)
  : Py UpdateWorldResponse :=
  λ s, (Returned tt,
        {| group_names := add_group name (group_names s);
           calls := calls s ++ [AddMesh name mesh_path pose] |}).

Definition remove_group (name : string) : Py UpdateWorldResponse :=
  λ s, (Returned tt,
        {| group_names := filter (λ g, g ≠ name) (group_names s);
           calls := calls s ++ [RemoveGroup name] |}).

Definition update_group_pose (name : string) (pose : PoseStamped)
  : Py UpdateWorldResponse :=
  call (UpdateGroupPose name pose).

Definition plan_and_execute : Py MoveResult :=
  λ s, let cs := calls s ++ [PlanAndExecute] in
       (Returned (planner cs), {| group_names := group_names s; calls := cs |}).

(** [open(path).read()]. *)
Definition read_file (path : string) : Outcome string :=
  match files !! path with
  | Some contents => Returned contents
  | None => Raised (FileNotFoundError path)
  end.

(** *** Creating ROS messages *)

Definition make_pose_stamped (position_and_orientation : list float * list float)
  : Outcome PoseStamped :=
  let '(po, qu) := position_and_orientation in
  let header := {| stamp := now; frame_id := "map" |} in
  px ← subscript po 0; py ← subscript po 1; pz ← subscript po 2;
  qx ← subscript qu 0; qy ← subscript qu 1; qz ← subscript qu 2;
  qw ← subscript qu 3;
  mret {| pose_header := header; position := (px, py, pz);
          orientation := (qx, qy, qz, qw) |}.

Definition make_point_stamped (p : list float) : Outcome PointStamped :=
  let header := {| stamp := now; frame_id := "map" |} in
  x ← subscript p 0; y ← subscript p 1; z ← subscript p 2;
  mret {| point_header := header; point := (x, y, z) |}.

Definition make_quaternion_stamped (q : list float) : Outcome QuaternionStamped :=
  let header := {| stamp := now; frame_id := "map" |} in
  x ← subscript q 0; y ← subscript q 1; z ← subscript q 2; w ← subscript q 3;
  mret {| quaternion_header := header; quaternion := (x, y, z, w) |}.

Definition make_vector_stamped (v : list float) : Outcome Vector3Stamped :=
  let header := {| stamp := now; frame_id := "map" |} in
  x ← subscript v 0; y ← subscript v 1; z ← subscript v 2;
  mret {| vector_header := header; vector := (x, y, z) |}.

Definition make_world_body (object : Object.t) : Outcome WorldBody :=
  let urdf_string := "" in
  urdf_sting ← read_file (Object.path object);
  let urdf_body := new_WorldBody in
  let urdf_body := set_body_type URDF_BODY urdf_body in
  let urdf_body := set_urdf urdf_string urdf_body in
  mret urdf_body.

(** *** Belief state management between pycram and giskard *)

Definition spawn_urdf (name urdf_path : string) (pose : list float * list float)
  : Py UpdateWorldResponse :=
  let urdf_string := "" in
  urdf_string ← eval (read_file urdf_path);
  pose_stamped ← eval (make_pose_stamped pose);
  add_urdf name urdf_string pose_stamped.

Definition spawn_mesh (name path : string) (pose : list float * list float)
  : Py UpdateWorldResponse :=
  pose_stamped ← eval (make_pose_stamped pose);
  add_mesh name path pose_stamped.

Definition spawn_object (object : Object.t) : Py unit :=
  spawn_urdf (giskard_name object) (Object.path object) (Object.pose object);;
  mret tt.

Definition remove_object (object : Object.t) : Py UpdateWorldResponse :=
  remove_group (giskard_name object).

Definition update_pose (object : Object.t) : Py UpdateWorldResponse :=
  pose_stamped ← eval (make_pose_stamped (Object.pose object));
  update_group_pose (giskard_name object) pose_stamped.

(** The body of the loop of [initial_adding_objects]. *)
Definition add_if_missing (w : BulletWorld) (groups : list string)
    (obj : Object.t) : Py unit :=
  if is_robot w obj then mret tt
  else
    let name := giskard_name obj in
    if bool_decide (name ∉ groups) then spawn_object obj else mret tt.

Definition initial_adding_objects (w : BulletWorld) : Py unit :=
  groups ← get_group_names;
  for_each (objects w) (add_if_missing w groups).

(** In [removing_of_objects] the lambda reads [object_names], the very
    local the enclosing assignment is about to bind; while [map] runs the
    cell is still empty.  Were it bound, it would hold a list, which has
    no attribute [name]. *)
Definition removing_of_objects (w : BulletWorld) : Py unit :=
  groups ← get_group_names;
  let object_names_cell : option (list string) := None in
  object_names ← list_map
    (λ obj : Object.t,
       object_names ← load_deref "object_names" object_names_cell;
       (raise (AttributeError "name") : Py string))
    (objects w);
  let diff := elements
    ((list_to_set groups : gset string) ∖ list_to_set object_names) in
  for_each diff (λ grp, remove_group grp;; mret tt).

Definition sync_worlds (w : BulletWorld) : Py unit :=
  let bullet_object_names : gset string :=
    list_to_set (giskard_name <$> objects w) in
  groups ← get_group_names;
  let giskard_object_names : gset string := list_to_set groups in
  let robot_name_set : gset string := {[ robot_name ]} in
  (if bool_decide (giskard_object_names ∖ bullet_object_names ∖ robot_name_set ≠ ∅)
   then clear_world else mret tt);;
  initial_adding_objects w.

(** *** Sending goals to Giskard *)

Definition achieve_joint_goal (w : BulletWorld) (goal_poses : gmap string float)
  : Py MoveResult :=
  sync_worlds w;;
  call (SetJointGoal goal_poses);;
  plan_and_execute.

Definition achieve_cartesian_goal (w : BulletWorld)
    (goal_pose : list float * list float) (tip_link root_link : string)
  : Py MoveResult :=
  sync_worlds w;;
  goal ← eval (make_pose_stamped goal_pose);
  call (SetCartGoal goal tip_link root_link);;
  plan_and_execute.

Definition achieve_straight_cartesian_goal (w : BulletWorld)
    (goal_pose : list float * list float) (tip_link root_link : string)
  : Py MoveResult :=
  sync_worlds w;;
  goal ← eval (make_pose_stamped goal_pose);
  call (SetStraightCartGoal goal tip_link root_link);;
  plan_and_execute.

Definition achieve_translation_goal (w : BulletWorld)
    (goal_point : list float) (tip_link root_link : string)
  : Py MoveResult :=
  sync_worlds w;;
  goal ← eval (make_point_stamped goal_point);
  call (SetTranslationGoal goal tip_link root_link);;
  plan_and_execute.

Definition achieve_straight_translation_goal (w : BulletWorld)
    (goal_point : list float) (tip_link root_link : string)
  : Py MoveResult :=
  sync_worlds w;;
  goal ← eval (make_point_stamped goal_point);
  call (SetStraightTranslationGoal goal tip_link root_link);;
  plan_and_execute.

Definition achieve_rotation_goal (w : BulletWorld)
    (quat : list float) (tip_link root_link : string)
  : Py MoveResult :=
  sync_worlds w;;
  goal ← eval (make_quaternion_stamped quat);
  call (SetRotationGoal goal tip_link root_link);;
  plan_and_execute.

Definition achieve_align_planes_goal (w : BulletWorld)
    (goal_normal : list float) (tip_link : string) (tip_normal : list float)
    (root_link : string)
  : Py MoveResult :=
  sync_worlds w;;
  goal ← eval (make_vector_stamped goal_normal);
  tip ← eval (make_vector_stamped tip_normal);
  call (SetAlignPlanesGoal goal tip_link tip root_link);;
  plan_and_execute.

Definition achieve_open_container_goal (w : BulletWorld)
    (tip_link environment_link : string)
  : Py MoveResult :=
  sync_worlds w;;
  call (SetOpenContainerGoal tip_link environment_link);;
  plan_and_execute.

Definition achieve_close_container_goal (w : BulletWorld)
    (tip_link environment_link : string)
  : Py MoveResult :=
  sync_worlds w;;
  call (SetCloseContainerGoal tip_link environment_link);;
  plan_and_execute.

(** *** Managing collisions *)

Definition avoid_all_collisions : Py unit := call AvoidAllCollisions.

Definition allow_self_collision : Py unit := call AllowSelfCollision.

Definition avoid_collisions (object1 object2 : Object.t) : Py unit :=
  call (AvoidCollision (-1) (giskard_name object1) (giskard_name object2)).

End GiskardInterface.

(** ** Motion designators

    The attributes of the motions that the modelled process modules read. *)

Record MoveArmJointsMotion : Type := mkMoveArmJointsMotion {
  left_arm_poses : option (gmap string float);
  right_arm_poses : option (gmap string float)
}.

Record DetectingMotion : Type := mkDetectingMotion {
  detecting_object_type : ObjectType
}.

Record WorldStateDetectingMotion : Type := mkWorldStateDetectingMotion {
  world_state_object_type : ObjectType
}.

(** ** Process modules of the HSRB *)

Section ProcessModules.

Variable robot_name : string.
Variable launch_groups : list string.
Variable files : gmap string string.
Variable now : Z.
Variable planner : list GiskardCall → MoveResult.

(** [btr.visible(obj, robot.get_link_pose(cam_frame_name),
    front_facing_axis)] in a world, and
    [BulletWorld.current_bullet_world.get_objects_by_type]. *)
Variable visible : BulletWorld → Object.t → bool.
Variable get_objects_by_type : BulletWorld → ObjectType → list Object.t.

(** Modelled from the spec: [Object.set_joint_states] of
    [pycram.bullet_world] is not part of the sources; a simulated
    implementation mutates the World Model directly, here by giving each
    named joint of the robot its new position. *)
Definition set_joint_states (joint_poses : gmap string float) (w : BulletWorld)
  : Outcome BulletWorld :=
  match robot w with
  | None => Raised (AttributeError "set_joint_states")
  | Some _ =>
      Returned {| objects := objects w; robot := robot w;
                  joint_states := joint_poses ∪ joint_states w |}
  end.

(** The loop of [HSRBDetecting._execute]; falling off its end makes the
    method return [None].  For every candidate the camera pose is read off
    the robot, [robot.get_link_pose(cam_frame_name)], which raises
    [AttributeError] while [BulletWorld.robot] is [None]. *)
Fixpoint HSRBDetecting_loop (w : BulletWorld) (objs : list Object.t)
  : Outcome (option Object.t) :=
  match objs with
  | [] => Returned None
  | obj :: rest =>
      match robot w with
      | None => Raised (AttributeError "get_link_pose")
      | Some _ =>
          if visible w obj then Returned (Some obj)
          else HSRBDetecting_loop w rest
      end
  end.

Definition HSRBDetecting_execute (desig : DetectingMotion) (w : BulletWorld)
  : Outcome (option Object.t) :=
  let object_type := detecting_object_type desig in
  let objs := get_objects_by_type w object_type in
  HSRBDetecting_loop w objs.

Definition HSRBWorldStateDetecting_execute (desig : WorldStateDetectingMotion)
    (w : BulletWorld) : Outcome Object.t :=
  let obj_type := world_state_object_type desig in
  subscript (filter (λ obj, Object.type obj = obj_type) (objects w)) 0.

Definition HSRBMoveArmJoints_execute (desig : MoveArmJointsMotion)
    (w : BulletWorld) : Outcome BulletWorld :=
  w ← (if truthy (right_arm_poses desig)
       then set_joint_states (default ∅ (right_arm_poses desig)) w
       else mret w);
  if truthy (left_arm_poses desig)
  then set_joint_states (default ∅ (left_arm_poses desig)) w
  else mret w.

(** The method has no [return]: the result of the goal is dropped. *)
Definition HSRBMoveArmJointsReal_execute (designator : MoveArmJointsMotion)
    (w : BulletWorld) : Py unit :=
  let joint_goals : gmap string float := ∅ in
  let joint_goals :=
    if truthy (left_arm_poses designator)
    then default ∅ (left_arm_poses designator) ∪ joint_goals
    else joint_goals in
  avoid_all_collisions;;
  achieve_joint_goal robot_name launch_groups files now planner w joint_goals;;
  mret tt.

End ProcessModules.

(** ** Process module managers *)

(** A [threading.Lock] object, known by its identity. *)
Inductive Lock : Type := LockObject (address : nat).

Global Instance Lock_eq_dec : EqDecision Lock.
Proof. solve_decision. Defined.

(** [Lock()]: a new object, at the next free address. *)
Definition new_Lock (heap : nat) : Lock * nat := (LockObject heap, S heap).

(** The process module classes. *)
Inductive ProcessModuleClass : Type :=
  | HSRBNavigation | HSRBPickUp | HSRBPlace | HSRBMoveHead | HSRBDetecting
  | HSRBMoveTCP | HSRBMoveArmJoints | HSRBWorldStateDetecting
  | HSRBMoveJoints | HSRBMoveGripper | HSRBOpen | HSRBClose
  | HSRBNavigationReal | HSRBPickUpReal | HSRBPlaceReal | HSRBMoveHeadReal
  | HSRBDetectingReal | HSRBMoveTCPReal | HSRBMoveArmJointsReal
  | HSRBMoveJointsReal | HSRBMoveGripperReal | HSRBOpenReal | HSRBCloseReal
  | DonbotMoveHead.

Global Instance ProcessModuleClass_eq_dec : EqDecision ProcessModuleClass.
Proof. solve_decision. Defined.

(** Modelled from the spec: [ProcessModule.__init__] of
    [pycram.process_module] is not part of the sources; an instance of a
    process module class keeps the lock it was constructed with, the lock
    of its capability. *)
Record ProcessModule : Type := mkProcessModule {
  pm_class : ProcessModuleClass;
  _lock : Lock
}.

(** The capabilities a manager has a method for. *)
Inductive Capability : Type :=
  | Navigate | PickUp | Place | Looking | Detecting | MoveTCP | MoveArmJoints
  | WorldStateDetecting | MoveJoints | MoveGripper | Open | Close.

Global Instance Capability_eq_dec : EqDecision Capability.
Proof. solve_decision. Defined.

Definition all_capabilities : list Capability :=
  [Navigate; PickUp; Place; Looking; Detecting; MoveTCP; MoveArmJoints;
   WorldStateDetecting; MoveJoints; MoveGripper; Open; Close].

Module HSRBManager.

Record t : Type := mk {
  _navigate_lock : Lock;
  _pick_up_lock : Lock;
  _place_lock : Lock;
  _looking_lock : Lock;
  _detecting_lock : Lock;
  _move_tcp_lock : Lock;
  _move_arm_joints_lock : Lock;
  _world_state_detecting_lock : Lock;
  _move_joints_lock : Lock;
  _move_gripper_lock : Lock;
  _open_lock : Lock;
  _close_lock : Lock
}.

(** [__init__], run with [heap] as the next free address, after
    [super().__init__("hsrb")]. *)
Definition __init__ (heap : nat) : t * nat :=
  let '(navigate_lock, heap) := new_Lock heap in
  let '(pick_up_lock, heap) := new_Lock heap in
  let '(place_lock, heap) := new_Lock heap in
  let '(looking_lock, heap) := new_Lock heap in
  let '(detecting_lock, heap) := new_Lock heap in
  let '(move_tcp_lock, heap) := new_Lock heap in
  let '(move_arm_joints_lock, heap) := new_Lock heap in
  let '(world_state_detecting_lock, heap) := new_Lock heap in
  let '(move_joints_lock, heap) := new_Lock heap in
  let '(move_gripper_lock, heap) := new_Lock heap in
  let '(open_lock, heap) := new_Lock heap in
  let '(close_lock, heap) := new_Lock heap in
  ({| _navigate_lock := navigate_lock;
      _pick_up_lock := pick_up_lock;
      _place_lock := place_lock;
      _looking_lock := looking_lock;
      _detecting_lock := detecting_lock;
      _move_tcp_lock := move_tcp_lock;
      _move_arm_joints_lock := move_arm_joints_lock;
      _world_state_detecting_lock := world_state_detecting_lock;
      _move_joints_lock := move_joints_lock;
      _move_gripper_lock := move_gripper_lock;
      _open_lock := open_lock;
      _close_lock := close_lock |}, heap).

(** [if execution_type == "simulated": return sim(lock)
    elif execution_type == "real": return real(lock)]; a method that
    reaches its end returns [None].  [execution_type] is the class
    attribute [ProcessModuleManager.execution_type], [None] or a
    string. *)
Definition select (execution_type : option string)
    (simulated real : ProcessModuleClass) (lock : Lock)
  : Outcome (option ProcessModule) :=
  if bool_decide (execution_type = Some "simulated")
  then Returned (Some (mkProcessModule simulated lock))
  else if bool_decide (execution_type = Some "real")
  then Returned (Some (mkProcessModule real lock))
  else Returned None.

Definition navigate (self : t) (execution_type : option string) :=
  select execution_type HSRBNavigation HSRBNavigationReal (_navigate_lock self).

Definition pick_up (self : t) (execution_type : option string) :=
  select execution_type HSRBPickUp HSRBPickUpReal (_pick_up_lock self).

Definition place (self : t) (execution_type : option string) :=
  select execution_type HSRBPlace HSRBPlaceReal (_place_lock self).

Definition looking (self : t) (execution_type : option string) :=
  select execution_type HSRBMoveHead HSRBMoveHeadReal (_looking_lock self).

Definition detecting (self : t) (execution_type : option string) :=
  select execution_type HSRBDetecting HSRBDetectingReal (_detecting_lock self).

Definition move_tcp (self : t) (execution_type : option string) :=
  select execution_type HSRBMoveTCP HSRBMoveTCPReal (_move_tcp_lock self).

Definition move_arm_joints (self : t) (execution_type : option string) :=
  select execution_type HSRBMoveArmJoints HSRBMoveArmJointsReal
    (_move_arm_joints_lock self).

Definition world_state_detecting (self : t) (execution_type : option string)
  : Outcome (option ProcessModule) :=
  if bool_decide (execution_type = Some "simulated")
     || bool_decide (execution_type = Some "real")
  then Returned (Some (mkProcessModule HSRBWorldStateDetecting
                         (_world_state_detecting_lock self)))
  else Returned None.

Definition move_joints (self : t) (execution_type : option string) :=
  select execution_type HSRBMoveJoints HSRBMoveJointsReal (_move_joints_lock self).

Definition move_gripper (self : t) (execution_type : option string) :=
  select execution_type HSRBMoveGripper HSRBMoveGripperReal
    (_move_gripper_lock self).

Definition open (self : t) (execution_type : option string) :=
  select execution_type HSRBOpen HSRBOpenReal (_open_lock self).

Definition close (self : t) (execution_type : option string) :=
  select execution_type HSRBClose HSRBCloseReal (_close_lock self).

(** The method of a capability, and the lock field named after it. *)
Definition method (c : Capability)
  : t → option string → Outcome (option ProcessModule) :=
  match c with
  | Navigate => navigate | PickUp => pick_up | Place => place
  | Looking => looking | Detecting => detecting | MoveTCP => move_tcp
  | MoveArmJoints => move_arm_joints
  | WorldStateDetecting => world_state_detecting
  | MoveJoints => move_joints | MoveGripper => move_gripper
  | Open => open | Close => close
  end.

Definition lock_of (c : Capability) : t → Lock :=
  match c with
  | Navigate => _navigate_lock | PickUp => _pick_up_lock
  | Place => _place_lock | Looking => _looking_lock
  | Detecting => _detecting_lock | MoveTCP => _move_tcp_lock
  | MoveArmJoints => _move_arm_joints_lock
  | WorldStateDetecting => _world_state_detecting_lock
  | MoveJoints => _move_joints_lock | MoveGripper => _move_gripper_lock
  | Open => _open_lock | Close => _close_lock
  end.

Definition locks (self : t) : list Lock :=
  (λ c, lock_of c self) <$> all_capabilities.

End HSRBManager.

(** Modelled from the spec: the enum [ExecutionType] of [pycram.enums] is
    not part of the sources; the execution mode is one of simulated and
    real. *)
Inductive ExecutionType : Type := SIMULATED | REAL.

Global Instance ExecutionType_eq_dec : EqDecision ExecutionType.
Proof. solve_decision. Defined.

Module DonbotManager.

(** [_looking_lock] is inherited from [DefaultManager]. *)
Record t : Type := mk {
  robot_name : string;
  _looking_lock : Lock
}.

Definition looking (self : t) (execution_type : option ExecutionType)
  : Outcome (option ProcessModule) :=
  if bool_decide (execution_type = Some SIMULATED)
  then Returned (Some (mkProcessModule DonbotMoveHead (_looking_lock self)))
  else Returned None.

End DonbotManager.

(** ** Vocabulary of the properties *)

(** The objects the loop of [initial_adding_objects] spawns, given the
    group names read before the loop. *)
Definition to_spawn (w : BulletWorld) (groups : list string)
    (objs : list Object.t) : list Object.t :=
  filter (λ o, is_robot w o = false ∧ giskard_name o ∉ groups) objs.

(** The call that spawns [o], when its URDF file can be read and its pose
    has three coordinates and four quaternion components. *)
Definition spawn_call (files : gmap string string) (now : Z) (o : Object.t)
  : Outcome GiskardCall :=
  urdf_string ← read_file files (Object.path o);
  pose_stamped ← make_pose_stamped now (Object.pose o);
  mret (AddUrdf (giskard_name o) urdf_string pose_stamped).

(** [groups] holds a name that is neither the name of an object of the
    BulletWorld nor the name of the robot. *)
Definition stale (robot_name : string) (w : BulletWorld) (groups : list string)
  : Prop :=
  Exists (λ g, (g ∉ giskard_name <$> objects w) ∧ g ≠ robot_name) groups.

(** What the synchronizer is said to guarantee on the belief state [s]:
    after a run that returns, the groups of the belief state include the
    name of the robot and the name of every object that is not the
    robot. *)
Definition sync_guarantee (robot_name : string) (launch_groups : list string)
    (files : gmap string string) (now : Z) (w : BulletWorld) (s : Giskard) : Prop :=
  ∀ s', sync_worlds robot_name launch_groups files now w s = (Returned tt, s') →
    ∀ g, (g = robot_name ∨
          ∃ o, o ∈ objects w ∧ is_robot w o = false ∧ g = giskard_name o) →
         g ∈ group_names s'.

(** The goal methods of [giskard.py] and their arguments. *)
Inductive GoalRequest : Type :=
  | JointGoal (goal_poses : gmap string float)
  | CartesianGoal (goal_pose : list float * list float) (tip_link root_link : string)
  | StraightCartesianGoal (goal_pose : list float * list float)
      (tip_link root_link : string)
  | TranslationGoal (goal_point : list float) (tip_link root_link : string)
  | StraightTranslationGoal (goal_point : list float) (tip_link root_link : string)
  | RotationGoal (quat : list float) (tip_link root_link : string)
  | AlignPlanesGoal (goal_normal : list float) (tip_link : string)
      (tip_normal : list float) (root_link : string)
  | OpenContainerGoal (tip_link environment_link : string)
  | CloseContainerGoal (tip_link environment_link : string).

Section GoalRequests.

Variable robot_name : string.
Variable launch_groups : list string.
Variable files : gmap string string.
Variable now : Z.
Variable planner : list GiskardCall → MoveResult.

(** The method a request stands for. *)
Definition achieve (w : BulletWorld) (req : GoalRequest) : Py MoveResult :=
  match req with
  | JointGoal goal_poses =>
      achieve_joint_goal robot_name launch_groups files now planner w goal_poses
  | CartesianGoal goal_pose tip_link root_link =>
      achieve_cartesian_goal robot_name launch_groups files now planner w
        goal_pose tip_link root_link
  | StraightCartesianGoal goal_pose tip_link root_link =>
      achieve_straight_cartesian_goal robot_name launch_groups files now planner w
        goal_pose tip_link root_link
  | TranslationGoal goal_point tip_link root_link =>
      achieve_translation_goal robot_name launch_groups files now planner w
        goal_point tip_link root_link
  | StraightTranslationGoal goal_point tip_link root_link =>
      achieve_straight_translation_goal robot_name launch_groups files now planner w
        goal_point tip_link root_link
  | RotationGoal quat tip_link root_link =>
      achieve_rotation_goal robot_name launch_groups files now planner w
        quat tip_link root_link
  | AlignPlanesGoal goal_normal tip_link tip_normal root_link =>
      achieve_align_planes_goal robot_name launch_groups files now planner w
        goal_normal tip_link tip_normal root_link
  | OpenContainerGoal tip_link environment_link =>
      achieve_open_container_goal robot_name launch_groups files now planner w
        tip_link environment_link
  | CloseContainerGoal tip_link environment_link =>
      achieve_close_container_goal robot_name launch_groups files now planner w
        tip_link environment_link
  end.

(** The goal description of a request: the call on the wrapper that
    submits it, once the stamped messages are built. *)
Definition goal_call (req : GoalRequest) : Outcome GiskardCall :=
  match req with
  | JointGoal goal_poses => mret (SetJointGoal goal_poses)
  | CartesianGoal goal_pose tip_link root_link =>
      goal ← make_pose_stamped now goal_pose;
      mret (SetCartGoal goal tip_link root_link)
  | StraightCartesianGoal goal_pose tip_link root_link =>
      goal ← make_pose_stamped now goal_pose;
      mret (SetStraightCartGoal goal tip_link root_link)
  | TranslationGoal goal_point tip_link root_link =>
      goal ← make_point_stamped now goal_point;
      mret (SetTranslationGoal goal tip_link root_link)
  | StraightTranslationGoal goal_point tip_link root_link =>
      goal ← make_point_stamped now goal_point;
      mret (SetStraightTranslationGoal goal tip_link root_link)
  | RotationGoal quat tip_link root_link =>
      goal ← make_quaternion_stamped now quat;
      mret (SetRotationGoal goal tip_link root_link)
  | AlignPlanesGoal goal_normal tip_link tip_normal root_link =>
      goal ← make_vector_stamped now goal_normal;
      tip ← make_vector_stamped now tip_normal;
      mret (SetAlignPlanesGoal goal tip_link tip root_link)
  | OpenContainerGoal tip_link environment_link =>
      mret (SetOpenContainerGoal tip_link environment_link)
  | CloseContainerGoal tip_link environment_link =>
      mret (SetCloseContainerGoal tip_link environment_link)
  end.

(** The sequence of a goal method: [sync_worlds], then the goal
    description, then [plan_and_execute], whose result is returned.  An
    exception of [sync_worlds] or of a message builder ends the method
    where it is raised. *)
Definition goal_sequence (w : BulletWorld) (req : GoalRequest) : Py MoveResult :=
  λ s,
    match sync_worlds robot_name launch_groups files now w s with
    | (Returned _, s1) =>
        match goal_call req with
        | Returned g =>
            let cs := calls s1 ++ [g; PlanAndExecute] in
            (Returned (planner cs), {| group_names := group_names s1; calls := cs |})
        | Raised e => (Raised e, s1)
        end
    | (Raised e, s1) => (Raised e, s1)
    end.

(** The sequence a goal method is said to follow: after [sync_worlds], a
    collision policy is applied, then the goal is submitted, then the
    plan is executed. *)
Definition sequence_with_policy (w : BulletWorld) (req : GoalRequest)
    (s : Giskard) : Prop :=
  ∀ r s', achieve w req s = (Returned r, s') →
    ∃ s1 policy g,
      sync_worlds robot_name launch_groups files now w s = (Returned tt, s1) ∧
      is_collision_policy policy = true ∧ is_goal g = true ∧
      calls s' = calls s1 ++ [policy; g; PlanAndExecute].

End GoalRequests.

(** A call that ends in an exception, and one that ends in a typed plan
    failure. *)
Definition raises {A : Type} (o : Outcome A) : Prop := ∃ e, o = Raised e.

Definition typed_failure {A : Type} (o : Outcome A) : Prop :=
  ∃ failure, o = Raised (PlanFailure failure).

(** What a manager is said to do for a (capability, mode) pair without an
    implementation: a lookup that yields no process module raises. *)
Definition unsupported_raises (lookup : Outcome (option ProcessModule)) : Prop :=
  (∀ pm, lookup ≠ Returned (Some pm)) → raises lookup.

(** [cls] is the class [HSRBManager] selects for capability [c] in
    execution mode [mode], constructed with the lock of [c]. *)
Definition registered (c : Capability) (mode : string) (cls : ProcessModuleClass)
  : Prop :=
  ∀ self, HSRBManager.method c self (Some mode)
          = Returned (Some (mkProcessModule cls (HSRBManager.lock_of c self))).

(** Capability [c] has a simulated and a distinct real implementation. *)
Definition two_implementations (c : Capability) : Prop :=
  ∃ simulated real,
    registered c "simulated" simulated ∧ registered c "real" real ∧ simulated ≠ real.

(** [get_objects_by_type] as a filter on the type of the objects. *)
Definition objects_of_type (w : BulletWorld) (object_type : ObjectType)
  : list Object.t :=
  filter (λ obj, Object.type obj = object_type) (objects w).

(** ** An example scenario

    A world with the robot, a cup and a bowl, and the URDF files of the two
    objects. *)
Module Example.

Definition origin : list float * list float :=
  ([PrimFloat.zero; PrimFloat.zero; PrimFloat.zero],
   [PrimFloat.zero; PrimFloat.zero; PrimFloat.zero; PrimFloat.one]).

Definition hsrb : Object.t := Object.mk "hsrb" 0 "hsrb.urdf" ROBOT origin.
Definition cup : Object.t := Object.mk "cup" 1 "cup.urdf" JEROEN_CUP origin.
Definition bowl : Object.t := Object.mk "bowl" 2 "bowl.urdf" BOWL origin.

Definition world : BulletWorld :=
  {| objects := [hsrb; cup; bowl]; robot := Some hsrb; joint_states := ∅ |}.

Definition files : gmap string string :=
  {[ "cup.urdf" := "<robot name='cup'/>"; "bowl.urdf" := "<robot name='bowl'/>" ]}.

(** A planner that achieves every goal. *)
Definition planner (cs : list GiskardCall) : MoveResult := Succeeded.

(** A motion with one target for each arm. *)
Definition left_targets : gmap string float := {[ "arm_flex_joint" := PrimFloat.one ]}.
Definition right_targets : gmap string float := {[ "arm_lift_joint" := PrimFloat.one ]}.

Definition motion : MoveArmJointsMotion :=
  {| left_arm_poses := Some left_targets; right_arm_poses := Some right_targets |}.

End Example.

(** ** Further process modules of the HSRB *)

(** [dict(pairs)]: a later pair replaces an earlier one with the same
    key. *)
Definition dict {V : Type} (pairs : list (string * V)) : gmap string V :=
  foldl (λ d p, <[p.1 := p.2]> d) ∅ pairs.

Record MoveJointsMotion : Type := mkMoveJointsMotion {
  names : list string;
  positions : list float
}.

Record MoveMotion : Type := mkMoveMotion {
  move_target : list float * list float
}.

Record MoveTCPMotion : Type := mkMoveTCPMotion {
  tcp_target : list float * list float;
  tcp_arm : string;
  allow_gripper_collision : bool
}.

Record MoveGripperMotion : Type := mkMoveGripperMotion {
  gripper : string;
  motion : string
}.

(** An opening or closing motion: the arm and the name of the grasped
    part, [object_part.name]. *)
Record ContainerMotion : Type := mkContainerMotion {
  container_arm : string;
  object_part_name : string
}.

(** The names bound in the module [giskard]: what it imports and what it
    defines. *)
Definition giskard_module : list string :=
  ["rospy"; "robot_description"; "BulletWorld"; "Object"; "ProcessModule";
   "GiskardWrapper"; "PoseStamped"; "PointStamped"; "QuaternionStamped";
   "Vector3Stamped"; "WorldBody"; "MoveResult"; "UpdateWorldRequest";
   "UpdateWorld"; "UpdateWorldResponse"; "List"; "Tuple"; "Dict";
   "giskard_wrapper"; "giskard_update_service";
   "initial_adding_objects"; "removing_of_objects"; "sync_worlds";
   "update_pose"; "spawn_object"; "remove_object"; "spawn_urdf"; "spawn_mesh";
   "achieve_joint_goal"; "achieve_cartesian_goal";
   "achieve_straight_cartesian_goal"; "achieve_translation_goal";
   "achieve_straight_translation_goal"; "achieve_rotation_goal";
   "achieve_align_planes_goal"; "achieve_open_container_goal";
   "achieve_close_container_goal";
   "avoid_all_collisions"; "allow_self_collision"; "avoid_collisions";
   "make_world_body"; "make_pose_stamped"; "make_point_stamped";
   "make_quaternion_stamped"; "make_vector_stamped"].

(** [giskard.<attribute>]: looking up a name the module does not bind
    raises [AttributeError]. *)
Definition giskard_getattr (attribute : string) : Outcome unit :=
  if bool_decide (attribute ∈ giskard_module) then Returned tt
  else Raised (AttributeError attribute).

(** Modelled from the spec: [Object.set_joint_state] of
    [pycram.bullet_world] is not part of the sources; as
    [set_joint_states], for one joint. *)
Definition set_joint_state (joint : string) (pose : float) (w : BulletWorld)
  : Outcome BulletWorld :=
  match robot w with
  | None => Raised (AttributeError "set_joint_state")
  | Some _ =>
      Returned {| objects := objects w; robot := robot w;
                  joint_states := <[joint := pose]> (joint_states w) |}
  end.

(** [for joint, pose in items: robot.set_joint_state(joint, pose)]. *)
Fixpoint set_each_joint (items : list (string * float)) (w : BulletWorld)
  : Outcome BulletWorld :=
  match items with
  | [] => Returned w
  | (joint, pose) :: items' =>
      w ← set_joint_state joint pose w; set_each_joint items' w
  end.

Section FurtherProcessModules.

Variable robot_name : string.
Variable launch_groups : list string.
Variable files : gmap string string.
Variable now : Z.
Variable planner : list GiskardCall → MoveResult.

(** The robot description: [robot_description.base_link],
    [robot_description.get_tool_frame(arm)],
    [robot_description.get_static_joint_chain(chain, configuration)] and
    [robot_description.get_static_gripper_chain(gripper, motion)]; and
    [LocalTransformer().transform_pose(pose, frame)]. *)
Variable base_link : string.
Variable get_tool_frame : string → string.
Variable get_static_joint_chain : string → string → gmap string float.
Variable get_static_gripper_chain : string → string → gmap string float.
Variable transform_pose : list float * list float → string → list float * list float.

Definition _park_arms (arm : string) (w : BulletWorld) : Outcome BulletWorld :=
  if bool_decide (arm = "left")
  then set_each_joint (map_to_list (get_static_joint_chain "left" "park")) w
  else Returned w.

Definition HSRBMoveGripper_execute (desig : MoveGripperMotion) (w : BulletWorld)
  : Outcome BulletWorld :=
  let gripper := gripper desig in
  let motion := motion desig in
  set_each_joint (map_to_list (get_static_gripper_chain gripper motion)) w.

Definition HSRBMoveJoints_execute (desig : MoveJointsMotion) (w : BulletWorld)
  : Outcome BulletWorld :=
  set_joint_states (dict (zip (names desig) (positions desig))) w.

(** The methods below have no [return]: they return [None] whatever the
    goal method has returned. *)
Definition HSRBMoveJointsReal_execute (designator : MoveJointsMotion)
    (w : BulletWorld) : Py unit :=
  let name_to_position := dict (zip (names designator) (positions designator)) in
  avoid_all_collisions;;
  achieve_joint_goal robot_name launch_groups files now planner w name_to_position;;
  mret tt.

Definition HSRBNavigationReal_execute (designator : MoveMotion) (w : BulletWorld)
  : Py unit :=
  achieve_cartesian_goal robot_name launch_groups files now planner w
    (move_target designator) base_link "map";;
  mret tt.

Definition HSRBMoveTCPReal_execute (designator : MoveTCPMotion) (w : BulletWorld)
  : Py unit :=
  let pose_in_map := transform_pose (tcp_target designator) "map" in
  (if allow_gripper_collision designator
   then eval (giskard_getattr "allow_gripper_collision")
   else mret tt);;
  achieve_cartesian_goal robot_name launch_groups files now planner w
    pose_in_map (get_tool_frame (tcp_arm designator)) base_link;;
  mret tt.

Definition HSRBMoveGripperReal_execute (designator : MoveGripperMotion) : Py unit :=
  eval (giskard_getattr "achieve_gripper_motion_goal").

Definition HSRBOpenReal_execute (designator : ContainerMotion) (w : BulletWorld)
  : Py unit :=
  achieve_open_container_goal robot_name launch_groups files now planner w
    (get_tool_frame (container_arm designator)) (object_part_name designator);;
  mret tt.

Definition HSRBCloseReal_execute (designator : ContainerMotion) (w : BulletWorld)
  : Py unit :=
  achieve_close_container_goal robot_name launch_groups files now planner w
    (get_tool_frame (container_arm designator)) (object_part_name designator);;
  mret tt.

End FurtherProcessModules.

(** No underscore occurs in the string. *)
Fixpoint underscore_free (s : string) : Prop :=
  match s with
  | EmptyString => True
  | String c s' => c ≠ "_"%char ∧ underscore_free s'
  end.

(** The belief state [sync_worlds] runs its loop on: the one
    [clear_world] resets to when a stale name is found, the current one
    otherwise. *)
Definition sync_base (robot_name : string) (launch_groups : list string)
    (w : BulletWorld) (s : Giskard) : list string :=
  if decide (stale robot_name w (group_names s)) then launch_groups else group_names s.

(** The calls of [sync_worlds] before its loop. *)
Definition sync_queries (robot_name : string) (w : BulletWorld) (s : Giskard)
  : list GiskardCall :=
  if decide (stale robot_name w (group_names s))
  then [GetGroupNames; ClearWorld; GetGroupNames]
  else [GetGroupNames; GetGroupNames].

(** Object [o] can be spawned: its URDF file is readable and its pose is
    complete. *)
Definition spawnable (files : gmap string string) (now : Z) (o : Object.t) : Prop :=
  ∃ c, spawn_call files now o = Returned c.

(** * Properties *)

(** ** Running computations *)

Lemma run_bind {A B : Type} (m : Py A) (f : A → Py B) (s : Giskard) :
  (m ≫= f) s =
  match m s with
  | (Returned v, s') => f v s'
  | (Raised e, s') => (Raised e, s')
  end.
Proof. reflexivity. Qed.

Lemma run_ret {A : Type} (v : A) (s : Giskard) : (mret v : Py A) s = (Returned v, s).
Proof. reflexivity. Qed.

Lemma run_call (c : GiskardCall) (s : Giskard) :
  call c s = (Returned tt, {| group_names := group_names s; calls := calls s ++ [c] |}).
Proof. reflexivity. Qed.

Lemma Giskard_eta (s : Giskard) :
  {| group_names := group_names s; calls := calls s |} = s.
Proof. by destruct s. Qed.

Lemma elem_of_add_group (name g : string) (groups : list string) :
  g ∈ add_group name groups ↔ g ∈ groups ∨ g = name.
Proof.
  unfold add_group. case_bool_decide as Hin.
  - split; [by left | intros [?| ->]; done].
  - rewrite elem_of_app, list_elem_of_singleton. done.
Qed.

Lemma stale_exists (robot_name : string) (w : BulletWorld) (groups : list string) :
  stale robot_name w groups ↔
  ∃ g, g ∈ groups ∧ (g ∉ giskard_name <$> objects w) ∧ g ≠ robot_name.
Proof. apply Exists_exists. Qed.

(** ** The belief state after [initial_adding_objects] *)

Section BeliefState.

Variable robot_name : string.
Variable launch_groups : list string.
Variable files : gmap string string.
Variable now : Z.

Local Abbreviation spawn_object := (spawn_object files now).
Local Abbreviation add_if_missing := (add_if_missing files now).
Local Abbreviation initial_adding_objects := (initial_adding_objects files now).
Local Abbreviation sync_worlds := (sync_worlds robot_name launch_groups files now).
Local Abbreviation spawn_call := (spawn_call files now).
Local Abbreviation stale := (stale robot_name).

Lemma spawn_object_run (o : Object.t) (s : Giskard) :
  spawn_object o s =
  match spawn_call o with
  | Returned c =>
      (Returned tt, {| group_names := add_group (giskard_name o) (group_names s);
                       calls := calls s ++ [c] |})
  | Raised e => (Raised e, s)
  end.
Proof.
  unfold spawn_object, spawn_urdf, spawn_call, eval.
  rewrite !run_bind.
  destruct (read_file files (Object.path o)) as [u|e]; simpl; [|done].
  rewrite run_bind.
  destruct (make_pose_stamped now (Object.pose o)) as [p|e]; simpl; done.
Qed.

Lemma add_if_missing_skip (w : BulletWorld) (groups : list string)
    (o : Object.t) (s : Giskard) :
  ¬ (is_robot w o = false ∧ giskard_name o ∉ groups) →
  add_if_missing w groups o s = (Returned tt, s).
Proof.
  intros Hskip. unfold add_if_missing.
  destruct (is_robot w o); [done|].
  case_bool_decide; [|done]. destruct Hskip. done.
Qed.

Lemma add_if_missing_spawn (w : BulletWorld) (groups : list string)
    (o : Object.t) (s : Giskard) :
  is_robot w o = false ∧ giskard_name o ∉ groups →
  add_if_missing w groups o s = spawn_object o s.
Proof.
  intros [Hr Hn]. unfold add_if_missing. rewrite Hr.
  case_bool_decide; done.
Qed.

(** Nothing to spawn: the loop leaves Giskard alone. *)
Lemma for_each_nothing_to_spawn (w : BulletWorld) (groups : list string)
    (objs : list Object.t) (s : Giskard) :
  to_spawn w groups objs = [] →
  for_each objs (add_if_missing w groups) s = (Returned tt, s).
Proof.
  induction objs as [|o objs IH]; intros Hnone; [done|].
  unfold to_spawn in Hnone. rewrite filter_cons in Hnone.
  case_decide as Hp; [done|].
  simpl. rewrite run_bind, add_if_missing_skip by done. by apply IH.
Qed.

(** A run of the loop that returns: which groups exist afterwards, and
    which calls were made. *)
Lemma for_each_add_if_missing (w : BulletWorld) (groups : list string)
    (objs : list Object.t) (s s' : Giskard) :
  for_each objs (add_if_missing w groups) s = (Returned tt, s') →
  (∀ g, g ∈ group_names s' ↔
        g ∈ group_names s ∨ g ∈ giskard_name <$> to_spawn w groups objs) ∧
  ∃ cs, calls s' = calls s ++ cs ∧
        Forall2 (λ o c, spawn_call o = Returned c) (to_spawn w groups objs) cs.
Proof.
  revert s. induction objs as [|o objs IH]; intros s Hrun.
  - simpl in Hrun. rewrite run_ret in Hrun. simplify_eq. split.
    + intros g. simpl. rewrite elem_of_nil. tauto.
    + exists []. by rewrite app_nil_r.
  - simpl in Hrun. rewrite run_bind in Hrun.
    unfold to_spawn. rewrite filter_cons. fold (to_spawn w groups objs).
    case_decide as Hp.
    + rewrite add_if_missing_spawn, spawn_object_run in Hrun by done.
      destruct (spawn_call o) as [c|e] eqn:Hc; [|done].
      apply IH in Hrun as [Hg (cs & Hcs & Hall)]. simpl in *. split.
      * intros g. rewrite Hg, elem_of_add_group, elem_of_cons. tauto.
      * exists (c :: cs). rewrite Hcs, <-app_assoc. split; [done|].
        by constructor.
    + rewrite add_if_missing_skip in Hrun by done.
      by apply IH in Hrun.
Qed.

(** The loop returns when every object it has to spawn can be spawned. *)
Lemma for_each_add_if_missing_returns (w : BulletWorld) (groups : list string)
    (objs : list Object.t) (s : Giskard) :
  Forall (λ o, ∃ c, spawn_call o = Returned c) (to_spawn w groups objs) →
  ∃ s', for_each objs (add_if_missing w groups) s = (Returned tt, s').
Proof.
  revert s. induction objs as [|o objs IH]; intros s Hall.
  - by exists s.
  - simpl. rewrite run_bind.
    unfold to_spawn in Hall. rewrite filter_cons in Hall.
    fold (to_spawn w groups objs) in Hall.
    case_decide as Hp.
    + apply Forall_cons in Hall as [[c Hc] Hall].
      rewrite add_if_missing_spawn, spawn_object_run, Hc by done.
      by apply IH.
    + rewrite add_if_missing_skip by done. by apply IH.
Qed.

Lemma stale_difference (w : BulletWorld) (groups : list string) :
  (list_to_set groups : gset string) ∖ list_to_set (giskard_name <$> objects w)
    ∖ {[ robot_name ]} ≠ ∅ ↔ stale w groups.
Proof.
  rewrite stale_exists. split.
  - intros Hne. apply set_choose_L in Hne as [g Hg].
    rewrite !elem_of_difference, !elem_of_list_to_set, elem_of_singleton in Hg.
    exists g. tauto.
  - intros (g & Hin & Hn & Hr) Hempty.
    apply (not_elem_of_empty (C:=gset string) g). rewrite <-Hempty.
    rewrite !elem_of_difference, !elem_of_list_to_set, elem_of_singleton. tauto.
Qed.

(** [sync_worlds] is the loop of [initial_adding_objects], run on the
    belief state [clear_world] resets to when a stale name is found, and
    on the belief state as it is otherwise. *)
Lemma sync_worlds_run (w : BulletWorld) (s : Giskard) :
  sync_worlds w s =
  if decide (stale w (group_names s))
  then for_each (objects w) (add_if_missing w launch_groups)
         {| group_names := launch_groups;
            calls := calls s ++ [GetGroupNames; ClearWorld; GetGroupNames] |}
  else for_each (objects w) (add_if_missing w (group_names s))
         {| group_names := group_names s;
            calls := calls s ++ [GetGroupNames; GetGroupNames] |}.
Proof.
  unfold sync_worlds. rewrite run_bind.
  unfold get_group_names at 1. cbv beta iota.
  rewrite (bool_decide_ext _ _ (stale_difference w (group_names s))).
  rewrite run_bind. unfold initial_adding_objects, get_group_names, clear_world.
  destruct (decide (stale w (group_names s))) as [Hd|Hd].
  - rewrite bool_decide_eq_true_2 by done. rewrite run_bind. simpl.
    by rewrite <-!app_assoc.
  - rewrite bool_decide_eq_false_2 by done. rewrite run_ret, run_bind. simpl.
    by rewrite <-!app_assoc.
Qed.

Lemma elem_of_to_spawn_names (w : BulletWorld) (groups : list string) (g : string) :
  g ∈ groups ∨ g ∈ giskard_name <$> to_spawn w groups (objects w) ↔
  g ∈ groups ∨ ∃ o, o ∈ objects w ∧ is_robot w o = false ∧ g = giskard_name o.
Proof.
  unfold to_spawn. rewrite list_elem_of_fmap. split.
  - intros [?|(o & -> & Ho)]; [by left|right].
    apply list_elem_of_filter in Ho as [[? ?] ?]. by exists o.
  - intros [?|(o & Ho & Hr & ->)]; [by left|].
    destruct (decide (giskard_name o ∈ groups)); [by left|right].
    exists o. split; [done|]. by apply list_elem_of_filter.
Qed.

(** The groups of the belief state after a run of [sync_worlds] that
    returns. *)
Lemma sync_worlds_groups (w : BulletWorld) (s s' : Giskard) :
  sync_worlds w s = (Returned tt, s') →
  ∀ g, g ∈ group_names s' ↔
       g ∈ (if decide (stale w (group_names s)) then launch_groups else group_names s)
       ∨ (∃ o, o ∈ objects w ∧ is_robot w o = false ∧ g = giskard_name o).
Proof.
  rewrite sync_worlds_run. intros Hrun g.
  destruct (decide (stale w (group_names s)));
    apply for_each_add_if_missing, proj1 in Hrun;
    rewrite Hrun; apply elem_of_to_spawn_names.
Qed.

(** The calls of a run of [sync_worlds] that returns. *)
Lemma sync_worlds_calls (w : BulletWorld) (s s' : Giskard) :
  sync_worlds w s = (Returned tt, s') →
  ∃ cs, calls s' = calls s ++ cs ∧
        Forall (λ c, c = GetGroupNames ∨ c = ClearWorld ∨
                     ∃ name urdf_string pose, c = AddUrdf name urdf_string pose) cs.
Proof.
  rewrite sync_worlds_run. intros Hrun.
  assert (∀ objs cs, Forall2 (λ o c, spawn_call o = Returned c) objs cs →
          Forall (λ c, c = GetGroupNames ∨ c = ClearWorld ∨
                       ∃ name urdf_string pose, c = AddUrdf name urdf_string pose) cs)
    as Hadd.
  { intros objs cs Hall. induction Hall as [|o c objs cs Hc _ IH]; constructor; [|done].
    right; right. unfold spawn_call in Hc.
    destruct (read_file files (Object.path o)); [|done]. simpl in Hc.
    destruct (make_pose_stamped now (Object.pose o)); [|done]. simpl in Hc.
    injection Hc as <-. eauto. }
  destruct (decide (stale w (group_names s)));
    apply for_each_add_if_missing, proj2 in Hrun; destruct Hrun as (cs & Hcs & Hall);
    simpl in Hcs; rewrite <-app_assoc in Hcs; eexists; (split; [exact Hcs|]);
    repeat (constructor; [tauto|]); eauto.
Qed.

Lemma to_spawn_nil (w : BulletWorld) (groups : list string) (objs : list Object.t) :
  (∀ o, o ∈ objs → is_robot w o = false → giskard_name o ∈ groups) →
  to_spawn w groups objs = [].
Proof.
  induction objs as [|o objs IH]; intros Hall; [done|].
  unfold to_spawn. rewrite filter_cons_False.
  - apply IH. intros o' Ho'. apply Hall. by right.
  - intros [Hr Hn]. apply Hn, Hall; [by left|done].
Qed.

(** C1 (as amended).  After [sync_worlds] has returned, the belief state
    has a group for every object of the BulletWorld that is not the
    robot.  The robot's own name is among the groups when it was before
    the call and [clear_world] keeps it.  When the belief state held a
    stale name, the calls made are the query, [clear_world], the query of
    [initial_adding_objects] and one [add_urdf] for every non-robot
    object that the reset belief state lacks, and the groups afterwards
    are those of the reset belief state together with the names of the
    non-robot objects. *)
Theorem sync_worlds_superset (w : BulletWorld) (s s' : Giskard) :
  sync_worlds w s = (Returned tt, s') →
  (∀ o, o ∈ objects w → is_robot w o = false → giskard_name o ∈ group_names s') ∧
  (robot_name ∈ group_names s → robot_name ∈ launch_groups →
   robot_name ∈ group_names s') ∧
  (stale w (group_names s) →
   (∃ cs, calls s' = calls s ++ [GetGroupNames; ClearWorld; GetGroupNames] ++ cs ∧
          Forall2 (λ o c, spawn_call o = Returned c)
            (to_spawn w launch_groups (objects w)) cs) ∧
   (∀ g, g ∈ group_names s' ↔
         g ∈ launch_groups ∨
         (∃ o, o ∈ objects w ∧ is_robot w o = false ∧ g = giskard_name o))).
Proof.
  intros Hrun. pose proof (sync_worlds_groups w s s' Hrun) as Hg.
  split; [|split].
  - intros o Ho Hr. apply Hg. right. by exists o.
  - intros Hs Hl. apply Hg. left. by case_decide.
  - intros Hstale. split.
    + rewrite sync_worlds_run, decide_True in Hrun by done.
      apply for_each_add_if_missing in Hrun as [_ (cs & Hcs & Hall)].
      exists cs. simpl in Hcs. by rewrite <-app_assoc in Hcs.
    + intros g. rewrite Hg, decide_True by done. done.
Qed.

(** [sync_worlds] returns when every object it has to spawn has a
    readable URDF file and a complete pose. *)
Lemma sync_worlds_returns (w : BulletWorld) (s : Giskard) :
  Forall (λ o, ∃ c, spawn_call o = Returned c) (objects w) →
  ∃ s', sync_worlds w s = (Returned tt, s').
Proof.
  intros Hall. rewrite sync_worlds_run.
  case_decide; apply for_each_add_if_missing_returns;
    apply Forall_forall; intros o Ho;
    apply list_elem_of_filter in Ho as [_ Ho];
    by apply (proj1 (Forall_forall _ _) Hall).
Qed.

End BeliefState.

(** C3.  A second run of [sync_worlds] right after one that returned, on
    the same BulletWorld, returns as well, leaves the groups as they are,
    and makes two calls only, both of them [get_group_names]: no
    [clear_world], no [add_urdf], no [remove_group]; this whatever the
    files and the clock have become in between.  What [clear_world] does
    is up to Giskard; the one thing asked of it is that, when the first
    run resets the belief state, the belief state it resets to holds no
    stale name (as is the case when it is empty or holds the robot
    only). *)
Theorem sync_worlds_idempotent (robot_name : string) (launch_groups : list string)
    (files files' : gmap string string) (now now' : Z)
    (w : BulletWorld) (s s1 : Giskard) :
  (stale robot_name w (group_names s) → ¬ stale robot_name w launch_groups) →
  sync_worlds robot_name launch_groups files now w s = (Returned tt, s1) →
  ∃ s2, sync_worlds robot_name launch_groups files' now' w s1 = (Returned tt, s2) ∧
        group_names s2 = group_names s1 ∧
        calls s2 = calls s1 ++ [GetGroupNames; GetGroupNames] ∧
        filter (λ c, is_mutation c = true) (drop (length (calls s1)) (calls s2)) = [].
Proof.
  intros Hlaunch Hrun.
  pose proof (sync_worlds_groups _ _ _ _ _ _ _ Hrun) as Hg.
  assert (¬ stale robot_name w (group_names s1)) as Hfresh.
  { rewrite stale_exists. intros (g & Hin & Hn & Hr).
    apply Hg in Hin as [Hin|(o & Ho & _ & ->)].
    - destruct (decide (stale robot_name w (group_names s))) as [Hs|Hs].
      + apply (Hlaunch Hs), stale_exists. by exists g.
      + apply Hs, stale_exists. by exists g.
    - apply Hn, list_elem_of_fmap. by exists o. }
  eexists. rewrite sync_worlds_run, decide_False by done.
  rewrite for_each_nothing_to_spawn.
  - split; [done|]. simpl. split; [done|]. split; [done|].
    by rewrite drop_app_length.
  - apply to_spawn_nil. intros o Ho Hr. apply Hg. right. by exists o.
Qed.

(** The scenario of the specification: the belief state knows the robot and
    a table that the BulletWorld does not have.  The table is dropped, cup
    and bowl are spawned, the robot stays because [clear_world] keeps it. *)
Lemma sync_worlds_superset_witness :
  ∃ s', sync_worlds "hsrb" ["hsrb"] Example.files 0 Example.world
          {| group_names := ["hsrb"; "table_9"]; calls := [] |} = (Returned tt, s') ∧
        group_names s' = ["hsrb"; "cup_1"; "bowl_2"] ∧
        (∀ o, o ∈ objects Example.world → is_robot Example.world o = false →
              giskard_name o ∈ group_names s') ∧
        "hsrb" ∈ group_names s'.
Proof.
  eexists. split; [vm_compute; reflexivity|]. split; [reflexivity|].
  pose proof (sync_worlds_superset "hsrb" ["hsrb"] Example.files 0 Example.world
                {| group_names := ["hsrb"; "table_9"]; calls := [] |} _ eq_refl)
    as (Hobjs & Hrobot & _).
  split; [exact Hobjs|].
  apply Hrobot; [by left|by left].
Defined.

(** C1 as stated fails: on a belief state that does not know the robot and
    holds no stale name, [sync_worlds] spawns cup and bowl and returns; the
    robot is not among the groups afterwards. *)
Lemma sync_guarantee_fails :
  ¬ sync_guarantee "hsrb" ["hsrb"] Example.files 0 Example.world
      {| group_names := []; calls := [] |}.
Proof.
  intros Hclaim.
  destruct (sync_worlds "hsrb" ["hsrb"] Example.files 0 Example.world
              {| group_names := []; calls := [] |}) as [o s'] eqn:Hrun.
  vm_compute in Hrun. injection Hrun as <- <-.
  specialize (Hclaim _ eq_refl "hsrb" (or_introl eq_refl)).
  simpl in Hclaim. rewrite !elem_of_add_group, elem_of_nil in Hclaim.
  destruct Hclaim as [[[]|Heq]|Heq]; vm_compute in Heq; discriminate.
Qed.

Lemma sync_worlds_idempotent_witness :
  ∃ s1 s2,
    sync_worlds "hsrb" ["hsrb"] Example.files 0 Example.world
      {| group_names := ["hsrb"; "table_9"]; calls := [] |} = (Returned tt, s1) ∧
    sync_worlds "hsrb" ["hsrb"] Example.files 0 Example.world s1 = (Returned tt, s2) ∧
    group_names s2 = group_names s1 ∧
    calls s2 = calls s1 ++ [GetGroupNames; GetGroupNames].
Proof.
  assert (∃ s1, sync_worlds "hsrb" ["hsrb"] Example.files 0 Example.world
                  {| group_names := ["hsrb"; "table_9"]; calls := [] |}
                = (Returned tt, s1)) as [s1 Hrun1].
  { eexists. vm_compute. reflexivity. }
  exists s1.
  destruct (sync_worlds_idempotent "hsrb" ["hsrb"] Example.files Example.files 0 0
              Example.world {| group_names := ["hsrb"; "table_9"]; calls := [] |} s1)
    as (s2 & Hrun2 & Hgroups & Hcalls & _).
  - intros _. rewrite stale_exists. intros (g & Hin & _ & Hne).
    apply list_elem_of_singleton in Hin. done.
  - exact Hrun1.
  - by exists s2.
Defined.

(** ** Goal achievement *)

(** Case analysis on the message builders a goal goes through. *)
Ltac destruct_message :=
  match goal with
  | |- context [make_pose_stamped ?n ?p] => destruct (make_pose_stamped n p)
  | |- context [make_point_stamped ?n ?p] => destruct (make_point_stamped n p)
  | |- context [make_quaternion_stamped ?n ?p] => destruct (make_quaternion_stamped n p)
  | |- context [make_vector_stamped ?n ?p] => destruct (make_vector_stamped n p)
  end.

Section GoalAchievement.

Variable robot_name : string.
Variable launch_groups : list string.
Variable files : gmap string string.
Variable now : Z.
Variable planner : list GiskardCall → MoveResult.

Local Abbreviation sync := (sync_worlds robot_name launch_groups files now).
Local Abbreviation method := (achieve robot_name launch_groups files now planner).
Local Abbreviation sequence :=
  (goal_sequence robot_name launch_groups files now planner).

Lemma goal_call_is_goal (req : GoalRequest) (g : GiskardCall) :
  goal_call now req = Returned g → is_goal g = true ∧ is_collision_policy g = false.
Proof.
  destruct req; cbv [goal_call mbind Outcome_bind mret Outcome_ret];
    repeat destruct_message; intros Hg; by simplify_eq.
Qed.

Lemma achieve_goal_sequence (w : BulletWorld) (req : GoalRequest) (s : Giskard) :
  method w req s = sequence w req s.
Proof.
  destruct req;
    cbv [achieve goal_sequence goal_call
         achieve_joint_goal achieve_cartesian_goal achieve_straight_cartesian_goal
         achieve_translation_goal achieve_straight_translation_goal
         achieve_rotation_goal achieve_align_planes_goal
         achieve_open_container_goal achieve_close_container_goal];
    rewrite run_bind;
    destruct (sync w s) as [[[]|e] s1]; try done;
    cbv [eval plan_and_execute call mbind Py_bind Outcome_bind mret Outcome_ret];
    repeat destruct_message; simpl; rewrite <-?app_assoc; done.
Qed.

(** C2 (as amended).  Every goal method is the same sequence:
    [sync_worlds], then the goal description, then [plan_and_execute],
    whose result the method returns.  A run that returns has made the
    calls of [sync_worlds] followed by the goal call and
    [plan_and_execute], and none of the calls it has made sets a
    collision policy: the policy is left to the caller, who sets it
    before calling the method. *)
Theorem goal_methods_sequence (w : BulletWorld) (req : GoalRequest) (s : Giskard) :
  method w req s = sequence w req s ∧
  ∀ r s', method w req s = (Returned r, s') →
    ∃ s1 g cs,
      sync w s = (Returned tt, s1) ∧
      goal_call now req = Returned g ∧ is_goal g = true ∧
      calls s' = calls s1 ++ [g; PlanAndExecute] ∧
      r = planner (calls s') ∧
      calls s' = calls s ++ cs ∧
      Forall (λ c, is_collision_policy c = false) cs.
Proof.
  split; [apply achieve_goal_sequence|].
  intros r s'. rewrite achieve_goal_sequence. unfold goal_sequence.
  destruct (sync w s) as [[[]|e] s1] eqn:Hsync; [|done].
  destruct (goal_call now req) as [g|e] eqn:Hgoal; [|done].
  intros [= <- <-]. simpl.
  destruct (goal_call_is_goal req g Hgoal) as [Hg Hp].
  destruct (sync_worlds_calls _ _ _ _ _ _ _ Hsync) as (cs & Hcs & Hall).
  exists s1, g, (cs ++ [g; PlanAndExecute]).
  repeat split; try done.
  - by rewrite Hcs, <-app_assoc.
  - apply Forall_app. split.
    + eapply Forall_impl; [exact Hall|].
      intros c [->|[->|(? & ? & ? & ->)]]; done.
    + by repeat constructor.
Qed.

End GoalAchievement.

(** C2 as stated fails: [achieve_joint_goal], called on a belief state that
    is in sync with the world, returns after four calls, the two queries of
    [sync_worlds], the joint goal and [plan_and_execute]; no collision
    policy is applied between the synchronization and the goal. *)
Lemma sequence_with_policy_fails :
  ¬ sequence_with_policy "hsrb" ["hsrb"] Example.files 0 Example.planner
      Example.world (JointGoal ∅)
      {| group_names := ["hsrb"; "cup_1"; "bowl_2"]; calls := [] |}.
Proof.
  intros Hclaim.
  destruct (Hclaim Succeeded
              {| group_names := ["hsrb"; "cup_1"; "bowl_2"];
                 calls := [GetGroupNames; GetGroupNames; SetJointGoal ∅;
                           PlanAndExecute] |})
    as (s1 & policy & g & Hsync & _ & _ & Hcalls).
  - vm_compute. reflexivity.
  - vm_compute in Hsync. injection Hsync as <-. simpl in Hcalls. discriminate.
Qed.

(** ** [removing_of_objects] and [make_world_body] *)

(** C8.  In a BulletWorld with at least one object, [removing_of_objects]
    raises [NameError] for [object_names] after its query of the group
    names: the groups of the belief state are as before and no
    [remove_group] call has been made. *)
Theorem removing_of_objects_raises (w : BulletWorld) (s : Giskard) :
  objects w ≠ [] →
  removing_of_objects w s =
  (Raised (NameError "object_names"),
   {| group_names := group_names s; calls := calls s ++ [GetGroupNames] |}).
Proof.
  intros Hobjs. unfold removing_of_objects. rewrite run_bind. simpl.
  destruct (objects w) as [|obj objs]; [done|].
  by rewrite run_bind.
Qed.

(** In an empty BulletWorld the lambda is never called: every group is
    removed, the robot included. *)
Example removing_of_objects_empty_world :
  removing_of_objects {| objects := []; robot := None; joint_states := ∅ |}
    {| group_names := ["hsrb"]; calls := [] |} =
  (Returned tt, {| group_names := []; calls := [GetGroupNames; RemoveGroup "hsrb"] |}).
Proof. vm_compute. reflexivity. Qed.

Lemma removing_of_objects_raises_witness :
  removing_of_objects Example.world
    {| group_names := ["hsrb"; "table_9"]; calls := [] |} =
  (Raised (NameError "object_names"),
   {| group_names := ["hsrb"; "table_9"]; calls := [GetGroupNames] |}).
Proof.
  apply (removing_of_objects_raises Example.world
           {| group_names := ["hsrb"; "table_9"]; calls := [] |}).
  simpl. discriminate.
Defined.

(** C9.  For an object whose URDF file can be read, [make_world_body]
    returns a URDF body whose [urdf] field is the empty string, whatever
    the file contains. *)
Theorem make_world_body_urdf_empty (files : gmap string string)
    (object : Object.t) (contents : string) :
  files !! Object.path object = Some contents →
  make_world_body files object = Returned {| body_type := URDF_BODY; urdf := "" |}.
Proof.
  intros Hfile. unfold make_world_body, read_file. by rewrite Hfile.
Qed.

Lemma make_world_body_urdf_empty_witness :
  Example.files !! Object.path Example.cup = Some "<robot name='cup'/>" ∧
  make_world_body Example.files Example.cup
  = Returned {| body_type := URDF_BODY; urdf := "" |}.
Proof.
  split; [vm_compute; reflexivity|].
  apply (make_world_body_urdf_empty Example.files Example.cup "<robot name='cup'/>").
  vm_compute. reflexivity.
Defined.

(** ** The managers *)

Lemma select_cases (execution_type : option string)
    (simulated real : ProcessModuleClass) (lock : Lock) :
  (execution_type = Some "simulated" ∧
   HSRBManager.select execution_type simulated real lock
   = Returned (Some (mkProcessModule simulated lock))) ∨
  (execution_type = Some "real" ∧
   HSRBManager.select execution_type simulated real lock
   = Returned (Some (mkProcessModule real lock))) ∨
  (execution_type ≠ Some "simulated" ∧ execution_type ≠ Some "real" ∧
   HSRBManager.select execution_type simulated real lock = Returned None).
Proof.
  unfold HSRBManager.select. repeat case_bool_decide; naive_solver.
Qed.

(** What a method of [HSRBManager] returns: a process module holding the
    lock of the capability when the execution type is ["simulated"] or
    ["real"], [None] otherwise. *)
Lemma method_cases (c : Capability) (self : HSRBManager.t)
    (execution_type : option string) :
  (∃ cls, (execution_type = Some "simulated" ∨ execution_type = Some "real") ∧
          HSRBManager.method c self execution_type
          = Returned (Some (mkProcessModule cls (HSRBManager.lock_of c self)))) ∨
  (execution_type ≠ Some "simulated" ∧ execution_type ≠ Some "real" ∧
   HSRBManager.method c self execution_type = Returned None).
Proof.
  destruct c;
    cbv [HSRBManager.method HSRBManager.lock_of HSRBManager.navigate
         HSRBManager.pick_up HSRBManager.place HSRBManager.looking
         HSRBManager.detecting HSRBManager.move_tcp HSRBManager.move_arm_joints
         HSRBManager.move_joints HSRBManager.move_gripper HSRBManager.open
         HSRBManager.close];
    try (match goal with
         | |- context [HSRBManager.select ?e ?a ?b ?l] =>
             destruct (select_cases e a b l) as [[? ->]|[[? ->]|(? & ? & ->)]]
         end; by eauto 6).
  unfold HSRBManager.world_state_detecting.
  repeat case_bool_decide; simpl; by eauto 6.
Qed.

(** C4 (as amended).  A manager method raises nothing.  A method of
    [HSRBManager] returns [None] exactly when the execution type is neither
    ["simulated"] nor ["real"]; [DonbotManager.looking] returns [None]
    exactly when the execution type is not [SIMULATED]. *)
Theorem unsupported_returns_None :
  (∀ c self execution_type,
     HSRBManager.method c self execution_type = Returned None ↔
     execution_type ≠ Some "simulated" ∧ execution_type ≠ Some "real") ∧
  (∀ c self execution_type, ¬ raises (HSRBManager.method c self execution_type)) ∧
  (∀ self execution_type,
     DonbotManager.looking self execution_type = Returned None ↔
     execution_type ≠ Some SIMULATED) ∧
  (∀ self execution_type, ¬ raises (DonbotManager.looking self execution_type)).
Proof.
  split; [|split; [|split]].
  - intros c self execution_type.
    destruct (method_cases c self execution_type)
      as [(cls & Hmode & Hm)|(Hs & Hr & Hm)]; rewrite Hm.
    + split; [done|]. intros [? ?]. by destruct Hmode.
    + done.
  - intros c self execution_type [e He].
    destruct (method_cases c self execution_type)
      as [(cls & _ & Hm)|(_ & _ & Hm)]; by rewrite Hm in He.
  - intros self execution_type. unfold DonbotManager.looking.
    case_bool_decide; [split|]; done.
  - intros self execution_type [e He]. unfold DonbotManager.looking in He.
    by case_bool_decide.
Qed.

(** C4 as stated fails: [DonbotManager.looking] has no implementation for
    the real robot and [HSRBManager.navigate] has none while no execution
    type is set; both lookups return [None], neither raises. *)
Lemma unsupported_raises_fails :
  ¬ unsupported_raises
      (DonbotManager.looking (DonbotManager.mk "iai_donbot" (LockObject 0)) (Some REAL)) ∧
  ¬ unsupported_raises (HSRBManager.navigate (HSRBManager.__init__ 0).1 None).
Proof.
  split; intros Hclaim; destruct Hclaim as [e He]; done.
Qed.

Lemma registered_unique (c : Capability) (mode : string)
    (cls1 cls2 : ProcessModuleClass) :
  registered c mode cls1 → registered c mode cls2 → cls1 = cls2.
Proof.
  intros H1 H2. pose proof (H1 (HSRBManager.__init__ 0).1) as E1.
  rewrite (H2 (HSRBManager.__init__ 0).1) in E1. by simplify_eq.
Qed.

(** C7 (as amended).  A capability of [HSRBManager] has a simulated and a
    distinct real implementation exactly when it is not world-state
    detection, for which both modes select [HSRBWorldStateDetecting];
    [DonbotManager.looking] has an implementation in simulated mode only. *)
Theorem two_implementations_except_world_state :
  (∀ c, two_implementations c ↔ c ≠ WorldStateDetecting) ∧
  registered WorldStateDetecting "simulated" HSRBWorldStateDetecting ∧
  registered WorldStateDetecting "real" HSRBWorldStateDetecting ∧
  (∀ self, DonbotManager.looking self (Some SIMULATED)
           = Returned (Some (mkProcessModule DonbotMoveHead
                               (DonbotManager._looking_lock self)))) ∧
  (∀ self, DonbotManager.looking self (Some REAL) = Returned None).
Proof.
  assert (registered WorldStateDetecting "simulated" HSRBWorldStateDetecting) as Hsim
    by done.
  assert (registered WorldStateDetecting "real" HSRBWorldStateDetecting) as Hreal
    by done.
  split; [|done].
  intros c. split.
  - intros (simulated & real & Hs & Hr & Hne) ->.
    apply Hne. rewrite (registered_unique _ _ _ _ Hs Hsim).
    by rewrite (registered_unique _ _ _ _ Hr Hreal).
  - intros Hc.
    destruct c; try done; eexists _, _;
      (split; [intros self; reflexivity|split; [intros self; reflexivity|done]]).
Qed.

(** C7 as stated fails: world-state detection has one implementation,
    selected in both modes. *)
Lemma two_implementations_fails : ¬ two_implementations WorldStateDetecting.
Proof.
  intros (simulated & real & Hs & Hr & Hne).
  pose proof (Hs (HSRBManager.__init__ 0).1) as Es.
  pose proof (Hr (HSRBManager.__init__ 0).1) as Er.
  vm_compute in Es, Er. simplify_eq.
Qed.

Lemma all_capabilities_complete (c : Capability) : c ∈ all_capabilities.
Proof. destruct c; unfold all_capabilities; rewrite !elem_of_cons; tauto. Qed.

Lemma locks_after_init (heap : nat) :
  HSRBManager.locks (HSRBManager.__init__ heap).1 = LockObject <$> seq heap 12.
Proof. reflexivity. Qed.

(** C6.  [HSRBManager.__init__] creates twelve locks, one for each
    capability and no two of them the same object; no two capabilities
    have the same lock, and the process module a method returns, in either
    mode, holds the lock of the capability of that method, so that process
    modules of different capabilities never hold the same lock. *)
Theorem one_lock_per_capability (heap : nat) :
  let self := (HSRBManager.__init__ heap).1 in
  (HSRBManager.__init__ heap).2 = heap + 12 ∧
  length (HSRBManager.locks self) = 12 ∧
  (∀ c, HSRBManager.lock_of c self ∈ HSRBManager.locks self) ∧
  NoDup (HSRBManager.locks self) ∧
  (∀ c1 c2, HSRBManager.lock_of c1 self = HSRBManager.lock_of c2 self → c1 = c2) ∧
  (∀ c execution_type pm,
     HSRBManager.method c self execution_type = Returned (Some pm) →
     _lock pm = HSRBManager.lock_of c self) ∧
  (∀ c1 c2 execution_type1 execution_type2 pm1 pm2,
     c1 ≠ c2 →
     HSRBManager.method c1 self execution_type1 = Returned (Some pm1) →
     HSRBManager.method c2 self execution_type2 = Returned (Some pm2) →
     _lock pm1 ≠ _lock pm2).
Proof.
  intros self.
  assert (∀ c1 c2, HSRBManager.lock_of c1 self = HSRBManager.lock_of c2 self → c1 = c2)
    as Hinj.
  { intros c1 c2. destruct c1, c2; simpl; intros Heq; try done; simplify_eq; lia. }
  assert (∀ c execution_type pm,
            HSRBManager.method c self execution_type = Returned (Some pm) →
            _lock pm = HSRBManager.lock_of c self) as Hown.
  { intros c execution_type pm Hm.
    destruct (method_cases c self execution_type) as [(cls & _ & Hc)|(_ & _ & Hc)];
      rewrite Hc in Hm; by simplify_eq. }
  split; [simpl; lia|]. split; [done|].
  split.
  { intros c. apply list_elem_of_fmap. exists c.
    split; [done|apply all_capabilities_complete]. }
  split; [|split; [done|split; [done|]]].
  - unfold self. rewrite locks_after_init. apply NoDup_fmap_2.
    + by intros ?? [=].
    + apply NoDup_seq.
  - intros c1 c2 ?? pm1 pm2 Hne H1 H2 Heq.
    apply Hne, Hinj. by rewrite <-(Hown _ _ _ H1), <-(Hown _ _ _ H2).
Qed.

(** ** Detection *)

Section Detection.

Variable visible : BulletWorld → Object.t → bool.
Variable get_objects_by_type : BulletWorld → ObjectType → list Object.t.

Lemma HSRBDetecting_loop_without_robot (w : BulletWorld) (objs : list Object.t) :
  robot w = None →
  HSRBDetecting_loop visible w objs =
  match objs with
  | [] => Returned None
  | _ :: _ => Raised (AttributeError "get_link_pose")
  end.
Proof. intros Hr. destruct objs; simpl; by rewrite ?Hr. Qed.

Lemma HSRBDetecting_loop_with_robot (w : BulletWorld) (objs : list Object.t) :
  is_Some (robot w) →
  (HSRBDetecting_loop visible w objs = Returned None ↔
   Forall (λ obj, visible w obj = false) objs) ∧
  ¬ raises (HSRBDetecting_loop visible w objs).
Proof.
  intros [r Hr]. induction objs as [|obj objs [IHnone IHraise]]; simpl.
  - split; [|by intros [e He]]. split; [by constructor|done].
  - rewrite Hr. destruct (visible w obj) eqn:Hv.
    + split; [|by intros [e He]].
      split; [done|]. intros Hall. apply Forall_cons in Hall as [Hf _]. congruence.
    + split; [|done].
      rewrite IHnone. split; [by constructor|]. by intros [_ ?]%Forall_cons.
Qed.

Lemma HSRBDetecting_loop_None (w : BulletWorld) (objs : list Object.t) :
  HSRBDetecting_loop visible w objs = Returned None ↔
  objs = [] ∨
  (is_Some (robot w) ∧ Forall (λ obj, visible w obj = false) objs).
Proof.
  destruct (robot w) as [r|] eqn:Hr.
  - rewrite (proj1 (HSRBDetecting_loop_with_robot w objs (mk_is_Some _ _ Hr))).
    split.
    + intros Hall. right. split; [by eexists|done].
    + intros [->|[_ Hall]]; [by constructor|done].
  - rewrite HSRBDetecting_loop_without_robot by done.
    destruct objs as [|obj objs].
    + split; [by left|done].
    + split; [done|]. intros [?|[[r' ?] _]]; done.
Qed.

Lemma HSRBDetecting_loop_Raised (w : BulletWorld) (objs : list Object.t)
    (e : PyError) :
  HSRBDetecting_loop visible w objs = Raised e ↔
  robot w = None ∧ objs ≠ [] ∧ e = AttributeError "get_link_pose".
Proof.
  destruct (robot w) as [r|] eqn:Hr.
  - split; [|by intros [? _]]. intros He.
    destruct (proj2 (HSRBDetecting_loop_with_robot w objs (mk_is_Some _ _ Hr))).
    by exists e.
  - rewrite HSRBDetecting_loop_without_robot by done.
    destruct objs as [|obj objs].
    + split; [done|]. by intros (_ & ? & _).
    + split; [by intros [= <-]|]. by intros (_ & _ & ->).
Qed.

(** C5 (as amended).  [HSRBDetecting] returns [None] exactly when there is
    no object of the requested type at all, or the BulletWorld has a robot
    and none of these objects is visible.  It raises exactly when there
    are such objects but no robot, and then it is [AttributeError].
    [HSRBWorldStateDetecting] raises [IndexError] exactly when the world
    has no object of the requested type.  Neither ends in a typed
    failure. *)
Theorem detection_not_found (w : BulletWorld) (object_type : ObjectType) :
  (HSRBDetecting_execute visible get_objects_by_type
     {| detecting_object_type := object_type |} w = Returned None ↔
   get_objects_by_type w object_type = [] ∨
   (is_Some (robot w) ∧
    Forall (λ obj, visible w obj = false) (get_objects_by_type w object_type))) ∧
  (∀ e, HSRBDetecting_execute visible get_objects_by_type
          {| detecting_object_type := object_type |} w = Raised e ↔
        robot w = None ∧ get_objects_by_type w object_type ≠ [] ∧
        e = AttributeError "get_link_pose") ∧
  ¬ typed_failure (HSRBDetecting_execute visible get_objects_by_type
                     {| detecting_object_type := object_type |} w) ∧
  (HSRBWorldStateDetecting_execute
     {| world_state_object_type := object_type |} w = Raised IndexError ↔
   Forall (λ obj, Object.type obj ≠ object_type) (objects w)) ∧
  ¬ typed_failure (HSRBWorldStateDetecting_execute
                     {| world_state_object_type := object_type |} w).
Proof.
  split; [apply HSRBDetecting_loop_None|].
  split; [intros e; apply HSRBDetecting_loop_Raised|].
  split.
  { intros [failure Hf]. by apply HSRBDetecting_loop_Raised in Hf as (_ & _ & ?). }
  unfold HSRBWorldStateDetecting_execute, subscript. simpl. split.
  - induction (objects w) as [|obj objs IH].
    + split; [by constructor|done].
    + rewrite filter_cons. case_decide as Ht; simpl.
      * split; [done|]. by intros [? _]%Forall_cons.
      * rewrite IH. split; [by constructor|]. by intros [_ ?]%Forall_cons.
  - intros [failure Hf]. by destruct (filter _ _ !! 0).
Qed.

End Detection.

(** A cup in a world without a robot: the camera pose cannot be read. *)
Example HSRBDetecting_without_robot :
  HSRBDetecting_execute (λ _ _, true) objects_of_type
    {| detecting_object_type := JEROEN_CUP |}
    {| objects := [Example.cup]; robot := None; joint_states := ∅ |}
  = Raised (AttributeError "get_link_pose").
Proof. reflexivity. Qed.

(** C5 as stated fails: asked for an object of a type the world does not
    have, [HSRBDetecting] returns [None], a result and not a failure, and
    [HSRBWorldStateDetecting] raises [IndexError], which is no typed
    failure. *)
Lemma typed_failure_fails :
  HSRBDetecting_execute (λ _ _, true) objects_of_type
    {| detecting_object_type := ENVIRONMENT |} Example.world = Returned None ∧
  ¬ typed_failure
      (HSRBDetecting_execute (λ _ _, true) objects_of_type
         {| detecting_object_type := ENVIRONMENT |} Example.world) ∧
  HSRBWorldStateDetecting_execute
    {| world_state_object_type := ENVIRONMENT |} Example.world = Raised IndexError ∧
  ¬ typed_failure
      (HSRBWorldStateDetecting_execute
         {| world_state_object_type := ENVIRONMENT |} Example.world).
Proof.
  split; [reflexivity|]. split; [by intros [failure Hf]|].
  split; [reflexivity|]. by intros [failure Hf].
Qed.

(** ** Moving the arm joints *)

Lemma truthy_default {V : Type} (d : option (gmap string V)) :
  truthy d = false → default ∅ d = ∅.
Proof.
  destruct d as [m|]; simpl; [|done].
  case_bool_decide; [done|discriminate].
Qed.

Section MoveArmJoints.

Variable robot_name : string.
Variable launch_groups : list string.
Variable files : gmap string string.
Variable now : Z.
Variable planner : list GiskardCall → MoveResult.

Local Abbreviation execute_real :=
  (HSRBMoveArmJointsReal_execute robot_name launch_groups files now planner).

Lemma HSRBMoveArmJointsReal_run (designator : MoveArmJointsMotion)
    (w : BulletWorld) (s : Giskard) :
  execute_real designator w s =
  (avoid_all_collisions;;
   achieve_joint_goal robot_name launch_groups files now planner w
     (default ∅ (left_arm_poses designator));;
   mret tt) s.
Proof.
  unfold HSRBMoveArmJointsReal_execute.
  destruct (truthy (left_arm_poses designator)) eqn:Hleft.
  - by rewrite (right_id_L ∅ (∪)).
  - by rewrite truthy_default.
Qed.

(** C10.  The real implementation of move-arm-joints does not depend on
    the right-arm targets of the motion.  It sets the avoid-all collision
    policy and synchronizes the belief state; whenever the synchronization
    returns, it submits the joint goal that holds the left-arm targets and
    nothing else, has the plan executed and returns, and it raises only
    what the synchronization raises.  In a run that returns, this is the
    only goal submitted.  The simulated implementation, given a robot,
    sets the joints named by the right-arm targets and then those named by
    the left-arm targets. *)
Theorem move_arm_joints_real_drops_right_arm
    (left right : option (gmap string float)) (w : BulletWorld) (s : Giskard) :
  (∀ right',
     execute_real {| left_arm_poses := left; right_arm_poses := right' |} w s
     = execute_real {| left_arm_poses := left; right_arm_poses := right |} w s) ∧
  (execute_real {| left_arm_poses := left; right_arm_poses := right |} w s
   = match sync_worlds robot_name launch_groups files now w
             {| group_names := group_names s;
                calls := calls s ++ [AvoidAllCollisions] |} with
     | (Returned _, s1) =>
         (Returned tt,
          {| group_names := group_names s1;
             calls := calls s1 ++ [SetJointGoal (default ∅ left); PlanAndExecute] |})
     | (Raised e, s1) => (Raised e, s1)
     end) ∧
  (∀ s',
     execute_real {| left_arm_poses := left; right_arm_poses := right |} w s
     = (Returned tt, s') →
     ∃ cs, calls s' = calls s ++ AvoidAllCollisions :: cs
                      ++ [SetJointGoal (default ∅ left); PlanAndExecute] ∧
           Forall (λ c, is_goal c = false) cs) ∧
  (is_Some (robot w) →
   HSRBMoveArmJoints_execute
     {| left_arm_poses := left; right_arm_poses := right |} w
   = Returned {| objects := objects w; robot := robot w;
                 joint_states :=
                   default ∅ left ∪ (default ∅ right ∪ joint_states w) |}).
Proof.
  split; [|split; [|split]].
  - intros right'. by rewrite !HSRBMoveArmJointsReal_run.
  - rewrite HSRBMoveArmJointsReal_run. cbn [left_arm_poses].
    unfold avoid_all_collisions. rewrite run_bind, run_call. cbv beta iota.
    rewrite run_bind.
    pose proof (achieve_goal_sequence robot_name launch_groups files now planner
                  w (JointGoal (default ∅ left))) as Hseq.
    cbn [achieve] in Hseq. rewrite Hseq. unfold goal_sequence.
    by destruct (sync_worlds _ _ _ _ _ _) as [[[]|e] s1].
  - intros s'. rewrite HSRBMoveArmJointsReal_run. cbn [left_arm_poses].
    unfold avoid_all_collisions. rewrite run_bind, run_call. cbv beta iota.
    rewrite run_bind.
    pose proof (achieve_goal_sequence robot_name launch_groups files now planner
                  w (JointGoal (default ∅ left))) as Hseq.
    cbn [achieve] in Hseq. rewrite Hseq. unfold goal_sequence.
    destruct (sync_worlds _ _ _ _ _ _) as [[[]|e] s1] eqn:Hsync; [|done].
    cbn [goal_call mret Outcome_ret]. rewrite run_ret. intros [= <-]. simpl.
    apply sync_worlds_calls in Hsync as (cs & Hcs & Hall). simpl in Hcs.
    exists cs. split.
    + rewrite Hcs, <-!app_assoc. done.
    + eapply Forall_impl; [exact Hall|].
      intros c [->|[->|(? & ? & ? & ->)]]; done.
  - intros [r Hr]. unfold HSRBMoveArmJoints_execute, set_joint_states. simpl.
    rewrite Hr.
    destruct (truthy right) eqn:Hright, (truthy left) eqn:Hleft; simpl;
      rewrite ?Hr, ?(truthy_default _ Hright), ?(truthy_default _ Hleft),
        ?(left_id_L ∅ (∪)); simpl; try done.
    destruct w; simpl in *. by rewrite Hr.
Qed.

End MoveArmJoints.

(** A motion with a target for each arm.  On a belief state in sync with
    the world the real implementation returns after five calls, the joint
    goal it submits holding the left-arm target only; it runs as it does
    without the right-arm target.  The simulated one sets both joints. *)
Lemma move_arm_joints_example :
  HSRBMoveArmJointsReal_execute "hsrb" ["hsrb"] Example.files 0 Example.planner
    Example.motion Example.world
    {| group_names := ["hsrb"; "cup_1"; "bowl_2"]; calls := [] |}
  = (Returned tt,
     {| group_names := ["hsrb"; "cup_1"; "bowl_2"];
        calls := [AvoidAllCollisions; GetGroupNames; GetGroupNames;
                  SetJointGoal Example.left_targets; PlanAndExecute] |}) ∧
  HSRBMoveArmJointsReal_execute "hsrb" ["hsrb"] Example.files 0 Example.planner
    {| left_arm_poses := Some Example.left_targets; right_arm_poses := None |}
    Example.world {| group_names := ["hsrb"; "cup_1"; "bowl_2"]; calls := [] |}
  = HSRBMoveArmJointsReal_execute "hsrb" ["hsrb"] Example.files 0 Example.planner
      Example.motion Example.world
      {| group_names := ["hsrb"; "cup_1"; "bowl_2"]; calls := [] |} ∧
  HSRBMoveArmJoints_execute Example.motion Example.world
  = Returned {| objects := objects Example.world; robot := robot Example.world;
                joint_states := Example.left_targets ∪ (Example.right_targets ∪ ∅) |}.
Proof.
  destruct (move_arm_joints_real_drops_right_arm "hsrb" ["hsrb"] Example.files 0
              Example.planner (Some Example.left_targets) (Some Example.right_targets)
              Example.world
              {| group_names := ["hsrb"; "cup_1"; "bowl_2"]; calls := [] |})
    as (Hreal & Hrun & _ & Hsimulated).
  split; [|split; [apply Hreal|apply Hsimulated; by eexists]].
  unfold Example.motion. rewrite Hrun. vm_compute. reflexivity.
Defined.

(** * Further properties *)

(** ** Names of objects in Giskard *)

Lemma underscore_free_app (a b : string) :
  ¬ underscore_free (a +:+ String "_" b).
Proof. induction a as [|c a IH]; simpl; intros [? ?]; done. Qed.

Lemma pretty_N_go_underscore_free (x : N) (s : string) :
  underscore_free s → underscore_free (pretty_N_go x s).
Proof.
  revert s. induction (N.lt_wf_0 x) as [x _ IH]; intros s Hs.
  assert (x = 0 ∨ 0 < x)%N as [->|Hpos] by lia.
  - by rewrite pretty_N_go_0.
  - rewrite pretty_N_go_step by done. apply IH.
    { by apply N.div_lt. }
    split; [|done]. unfold pretty_N_char. by repeat case_match.
Qed.

Lemma pretty_Z_underscore_free (z : Z) : underscore_free (pretty z).
Proof.
  assert (∀ p : positive, underscore_free (pretty p)) as Hpos.
  { intros p. unfold pretty, pretty_positive, pretty, pretty_N.
    case_decide; [done|]. by apply pretty_N_go_underscore_free. }
  destruct z as [|p|p]; unfold pretty, pretty_Z; [done|apply Hpos|].
  split; [done|apply Hpos].
Qed.

Lemma split_at_last_underscore (a b d1 d2 : string) :
  underscore_free d1 → underscore_free d2 →
  a +:+ String "_" d1 = b +:+ String "_" d2 → a = b ∧ d1 = d2.
Proof.
  intros H1 H2. revert b. induction a as [|c a IH]; intros [|c' b]; simpl.
  - by intros [= ->].
  - intros [= <- ->]. by destruct (underscore_free_app b d2).
  - intros [= -> <-]. by destruct (underscore_free_app a d1).
  - intros [= -> Heq]. destruct (IH _ Heq) as [-> ->]. done.
Qed.

(** X1.  The name of an object in Giskard, its name, an underscore and its
    id in decimal, identifies the object: two objects with the same
    Giskard name have the same name and the same id. *)
Theorem giskard_name_inj (o1 o2 : Object.t) :
  giskard_name o1 = giskard_name o2 ↔
  Object.name o1 = Object.name o2 ∧ Object.id o1 = Object.id o2.
Proof.
  unfold giskard_name. split.
  - intros Heq.
    apply split_at_last_underscore in Heq as [Hn Hi];
      [|apply pretty_Z_underscore_free..].
    split; [done|]. by apply (inj pretty).
  - by intros [-> ->].
Qed.

(** ** Every run of [sync_worlds], returning or not *)

Lemma add_group_app (name : string) (groups : list string) :
  ∃ added, add_group name groups = groups ++ added ∧ Forall (λ g, g = name) added.
Proof.
  unfold add_group. case_bool_decide.
  - exists []. by rewrite app_nil_r.
  - exists [name]. by repeat constructor.
Qed.

Section EveryRun.

Variable robot_name : string.
Variable launch_groups : list string.
Variable files : gmap string string.
Variable now : Z.

Local Abbreviation sync := (sync_worlds robot_name launch_groups files now).
Local Abbreviation base := (sync_base robot_name launch_groups).
Local Abbreviation queries := (sync_queries robot_name).
Local Abbreviation spawned_by := (λ o c, spawn_call files now o = Returned c).

(** How far the loop of [initial_adding_objects] gets: the objects
    [spawned] before it stops, and what stops it. *)
Lemma for_each_add_if_missing_outcome (w : BulletWorld) (groups : list string)
    (objs : list Object.t) (s : Giskard) (o : Outcome unit) (s' : Giskard) :
  for_each objs (add_if_missing files now w groups) s = (o, s') →
  ∃ spawned rest cs added,
    to_spawn w groups objs = spawned ++ rest ∧
    Forall2 spawned_by spawned cs ∧
    calls s' = calls s ++ cs ∧
    group_names s' = group_names s ++ added ∧
    (∀ g, g ∈ added → g ∈ giskard_name <$> spawned) ∧
    (∀ g, g ∈ giskard_name <$> spawned → g ∈ group_names s') ∧
    match o with
    | Returned _ => rest = []
    | Raised e => ∃ x rest', rest = x :: rest' ∧ spawn_call files now x = Raised e
    end.
Proof.
  revert s. induction objs as [|x objs IH]; intros s Hrun.
  - simpl in Hrun. rewrite run_ret in Hrun. simplify_eq.
    exists [], [], [], []. rewrite !app_nil_r. repeat split; try done.
    intros g Hg. by apply elem_of_nil in Hg.
  - simpl in Hrun. rewrite run_bind in Hrun.
    unfold to_spawn. rewrite filter_cons. fold (to_spawn w groups objs).
    case_decide as Hp.
    + rewrite add_if_missing_spawn, spawn_object_run in Hrun by done.
      destruct (spawn_call files now x) as [c|e] eqn:Hc.
      * apply IH in Hrun
          as (spawned & rest & cs & added & Hsp & Hall & Hcs & Hgr & Hadd & Hin & Ho).
        simpl in Hcs, Hgr.
        destruct (add_group_app (giskard_name x) (group_names s))
          as (first & Hfirst & Hfirst_name).
        exists (x :: spawned), rest, (c :: cs), (first ++ added).
        rewrite Hsp, Hcs, Hgr, Hfirst, <-!app_assoc. repeat split; try done.
        -- by constructor.
        -- intros g [Hg|Hg]%elem_of_app.
           ++ rewrite (proj1 (Forall_forall _ _) Hfirst_name g Hg). by left.
           ++ right. by apply Hadd.
        -- intros g Hg. rewrite fmap_cons in Hg.
           apply elem_of_cons in Hg as [->|Hg].
           ++ rewrite app_assoc, <-Hfirst. apply elem_of_app. left.
              apply elem_of_add_group. by right.
           ++ rewrite app_assoc, <-Hfirst, <-Hgr. by apply Hin.
      * simplify_eq. exists [], (x :: to_spawn w groups objs), [], [].
        rewrite !app_nil_r.
        repeat split; try done; try (intros g Hg; by apply elem_of_nil in Hg);
          by eauto.
    + rewrite add_if_missing_skip in Hrun by done. by apply IH in Hrun.
Qed.

(** The same for [sync_worlds], whose loop starts from the belief state
    [base w s] after the calls [queries w s]. *)
Lemma sync_worlds_outcome (w : BulletWorld) (s : Giskard)
    (o : Outcome unit) (s' : Giskard) :
  sync w s = (o, s') →
  ∃ spawned rest cs added,
    to_spawn w (base w s) (objects w) = spawned ++ rest ∧
    Forall2 spawned_by spawned cs ∧
    calls s' = calls s ++ queries w s ++ cs ∧
    group_names s' = base w s ++ added ∧
    (∀ g, g ∈ added → g ∈ giskard_name <$> spawned) ∧
    (∀ g, g ∈ giskard_name <$> spawned → g ∈ group_names s') ∧
    match o with
    | Returned _ => rest = []
    | Raised e => ∃ x rest', rest = x :: rest' ∧ spawn_call files now x = Raised e
    end.
Proof.
  rewrite sync_worlds_run. unfold sync_base, sync_queries.
  destruct (decide (stale robot_name w (group_names s))); intros Hrun;
    apply for_each_add_if_missing_outcome in Hrun
      as (spawned & rest & cs & added & Hsp & Hall & Hcs & Hgr & Hadd & Hin & Ho);
    simpl in Hcs, Hgr; rewrite <-app_assoc in Hcs;
    by exists spawned, rest, cs, added.
Qed.

End EveryRun.

Lemma spawn_call_AddUrdf (files : gmap string string) (now : Z)
    (o : Object.t) (c : GiskardCall) :
  spawn_call files now o = Returned c →
  ∃ urdf_string pose,
    files !! Object.path o = Some urdf_string ∧
    make_pose_stamped now (Object.pose o) = Returned pose ∧
    c = AddUrdf (giskard_name o) urdf_string pose.
Proof.
  unfold spawn_call, read_file.
  destruct (files !! Object.path o) as [u|]; [|done]. simpl.
  destruct (make_pose_stamped now (Object.pose o)) as [p|]; [|done]. simpl.
  intros [= <-]. by exists u, p.
Qed.

Lemma subscript_error {A : Type} (l : list A) (i : nat) (e : PyError) :
  subscript l i = Raised e → e = IndexError.
Proof. unfold subscript. destruct (l !! i); by intros [= <-]. Qed.

Lemma make_pose_stamped_error (now : Z) (p : list float * list float) (e : PyError) :
  make_pose_stamped now p = Raised e → e = IndexError.
Proof.
  destruct p as [po qu]. unfold make_pose_stamped.
  repeat match goal with
    | |- context [subscript ?l ?i] =>
        let H := fresh in
        destruct (subscript l i) eqn:H; simpl;
        [|apply subscript_error in H; by intros [= <-]]
    end.
  done.
Qed.

Lemma spawn_call_error (files : gmap string string) (now : Z)
    (o : Object.t) (e : PyError) :
  spawn_call files now o = Raised e →
  (files !! Object.path o = None ∧ e = FileNotFoundError (Object.path o)) ∨
  (is_Some (files !! Object.path o) ∧ e = IndexError).
Proof.
  unfold spawn_call, read_file.
  destruct (files !! Object.path o) as [u|]; simpl.
  - destruct (make_pose_stamped now (Object.pose o)) as [p|e'] eqn:Hp; simpl; [done|].
    intros [= <-]. right. split; [by eexists|]. by eapply make_pose_stamped_error.
  - intros [= <-]. by left.
Qed.

Section SyncWorldsRuns.

Variable robot_name : string.
Variable launch_groups : list string.
Variable files : gmap string string.
Variable now : Z.

Local Abbreviation sync := (sync_worlds robot_name launch_groups files now).
Local Abbreviation base := (sync_base robot_name launch_groups).
Local Abbreviation queries := (sync_queries robot_name).

(** X2.  Whether it returns or raises, [sync_worlds] only queries the
    group names, clears the world and adds URDFs: it never removes a
    single group, never updates a pose, never adds a mesh.  It calls
    [clear_world] exactly when the belief state holds a stale name. *)
Theorem sync_worlds_never_removes (w : BulletWorld) (s : Giskard) :
  ∃ cs, calls (sync w s).2 = calls s ++ cs ∧
        Forall (λ c, c = GetGroupNames ∨ c = ClearWorld ∨
                     ∃ name urdf_string pose, c = AddUrdf name urdf_string pose) cs ∧
        (ClearWorld ∈ cs ↔ stale robot_name w (group_names s)).
Proof.
  destruct (sync w s) as [o s'] eqn:Hrun.
  apply sync_worlds_outcome in Hrun
    as (spawned & rest & cs & added & _ & Hall & Hcs & _).
  assert (Forall (λ c, ∃ name urdf_string pose, c = AddUrdf name urdf_string pose) cs)
    as Hadd.
  { clear Hcs. induction Hall as [|x c ?? Hc _ IH]; constructor; [|done].
    apply spawn_call_AddUrdf in Hc as (u & p & _ & _ & ->). eauto. }
  exists (queries w s ++ cs). simpl. split; [done|]. split.
  - apply Forall_app. split.
    + unfold sync_queries. case_decide; repeat constructor; tauto.
    + eapply Forall_impl; [exact Hadd|]. intros c Hc. by do 2 right.
  - rewrite elem_of_app. unfold sync_queries. case_decide as Hs.
    + split; [done|]. intros _. left. apply elem_of_cons. right. by left.
    + split; [|done]. intros [Hin|Hin].
      * apply elem_of_cons in Hin as [?|Hin]; [done|].
        apply elem_of_cons in Hin as [?|Hin]; [done|]. by apply elem_of_nil in Hin.
      * apply (proj1 (Forall_forall _ _) Hadd) in Hin as (? & ? & ? & ?). done.
Qed.

(** X3.  On a belief state without stale names, [sync_worlds] only adds
    groups, also when it raises: the groups it found are still there, in
    the same order, followed by names of non-robot objects of the
    BulletWorld that were missing. *)
Theorem sync_worlds_only_adds (w : BulletWorld) (s : Giskard) :
  ¬ stale robot_name w (group_names s) →
  ∃ added,
    group_names (sync w s).2 = group_names s ++ added ∧
    ∀ g, g ∈ added →
         (g ∉ group_names s) ∧
         ∃ o, o ∈ objects w ∧ is_robot w o = false ∧ g = giskard_name o.
Proof.
  intros Hfresh. destruct (sync w s) as [o s'] eqn:Hrun.
  apply sync_worlds_outcome in Hrun
    as (spawned & rest & cs & added & Hsp & _ & _ & Hgr & Hadd & _).
  unfold sync_base in *. rewrite decide_False in Hsp, Hgr by done.
  exists added. split; [done|]. intros g Hg.
  apply Hadd, list_elem_of_fmap in Hg as (x & -> & Hx).
  assert (x ∈ to_spawn w (group_names s) (objects w)) as Hin.
  { rewrite Hsp. apply elem_of_app. by left. }
  apply list_elem_of_filter in Hin as [[Hr Hn] Hin]. split; [done|]. by exists x.
Qed.

(** X4.  When [sync_worlds] raises, it is at the first object to spawn
    whose URDF file cannot be read ([FileNotFoundError]) or whose pose is
    incomplete ([IndexError]).  Nothing is undone: the world has been
    cleared if it was stale, and the objects handled before are groups of
    the belief state. *)
Theorem sync_worlds_raises_at (w : BulletWorld) (s s' : Giskard) (e : PyError) :
  sync w s = (Raised e, s') →
  ∃ spawned x rest cs,
    to_spawn w (base w s) (objects w) = spawned ++ x :: rest ∧
    ((files !! Object.path x = None ∧ e = FileNotFoundError (Object.path x)) ∨
     (is_Some (files !! Object.path x) ∧ e = IndexError)) ∧
    Forall2 (λ o c, spawn_call files now o = Returned c) spawned cs ∧
    calls s' = calls s ++ queries w s ++ cs ∧
    (∀ g, g ∈ group_names s' ↔ g ∈ base w s ∨ g ∈ giskard_name <$> spawned).
Proof.
  intros Hrun.
  apply sync_worlds_outcome in Hrun
    as (spawned & rest & cs & added & Hsp & Hall & Hcs & Hgr & Hadd & Hin
        & x & rest' & -> & Hx).
  exists spawned, x, rest', cs. repeat split; try done.
  - by apply spawn_call_error in Hx.
  - rewrite Hgr. intros [?|?]%elem_of_app; [by left|right; by apply Hadd].
  - intros [Hg|Hg]; [|by apply Hin]. rewrite Hgr. apply elem_of_app. by left.
Qed.

(** X5.  [sync_worlds] returns only if every object it has to spawn, the
    non-robot objects missing from the belief state its loop starts from,
    has a readable URDF file and a complete pose: one object to spawn
    without them keeps [sync_worlds] from returning. *)
Theorem sync_worlds_returns_only_if (w : BulletWorld) (s s' : Giskard) :
  sync w s = (Returned tt, s') →
  Forall (spawnable files now) (to_spawn w (base w s) (objects w)).
Proof.
  intros Hrun.
  apply sync_worlds_outcome in Hrun
    as (spawned & rest & cs & added & Hsp & Hall & _ & _ & _ & _ & ->).
  rewrite Hsp, app_nil_r. clear Hsp.
  induction Hall as [|x c ?? Hc _ IH]; constructor; [by exists c|done].
Qed.

End SyncWorldsRuns.

Lemma sync_worlds_returns_only_if_witness :
  Forall (spawnable Example.files 0)
    (to_spawn Example.world
       (sync_base "hsrb" ["hsrb"] Example.world
          {| group_names := ["hsrb"]; calls := [] |})
       (objects Example.world)).
Proof.
  assert (∃ s', sync_worlds "hsrb" ["hsrb"] Example.files 0 Example.world
                  {| group_names := ["hsrb"]; calls := [] |} = (Returned tt, s'))
    as [s' Hrun].
  { eexists. vm_compute. reflexivity. }
  exact (sync_worlds_returns_only_if _ _ _ _ _ _ _ Hrun).
Defined.

Lemma sync_worlds_only_adds_witness :
  ∃ added,
    group_names (sync_worlds "hsrb" ["hsrb"] Example.files 0 Example.world
                   {| group_names := ["hsrb"; "cup_1"]; calls := [] |}).2
    = ["hsrb"; "cup_1"] ++ added.
Proof.
  destruct (sync_worlds_only_adds "hsrb" ["hsrb"] Example.files 0 Example.world
              {| group_names := ["hsrb"; "cup_1"]; calls := [] |})
    as (added & Hgroups & _).
  - rewrite stale_exists. intros (g & Hin & Hn & Hr). simpl in Hin.
    apply elem_of_cons in Hin as [->|Hin]; [done|].
    apply list_elem_of_singleton in Hin as ->. apply Hn. vm_compute.
    apply elem_of_cons. right. by left.
  - by exists added.
Defined.

(** A world whose bowl has no URDF file: the cup is spawned, then the bowl
    makes [sync_worlds] raise. *)
Lemma sync_worlds_raises_at_witness :
  ∃ s' spawned x rest,
    sync_worlds "hsrb" ["hsrb"] {[ "cup.urdf" := "<robot name='cup'/>" ]} 0
      Example.world {| group_names := ["hsrb"]; calls := [] |}
    = (Raised (FileNotFoundError "bowl.urdf"), s') ∧
    to_spawn Example.world
      (sync_base "hsrb" ["hsrb"] Example.world
         {| group_names := ["hsrb"]; calls := [] |})
      (objects Example.world) = spawned ++ x :: rest ∧
    group_names s' = ["hsrb"; "cup_1"].
Proof.
  assert (∃ s', sync_worlds "hsrb" ["hsrb"] {[ "cup.urdf" := "<robot name='cup'/>" ]} 0
                  Example.world {| group_names := ["hsrb"]; calls := [] |}
                = (Raised (FileNotFoundError "bowl.urdf"), s') ∧
                group_names s' = ["hsrb"; "cup_1"]) as (s' & Hrun & Hgroups).
  { eexists. split; vm_compute; reflexivity. }
  destruct (sync_worlds_raises_at _ _ _ _ _ _ _ _ Hrun)
    as (spawned & x & rest & cs & Hsp & _).
  by exists s', spawned, x, rest.
Defined.

(** ** Single changes of the belief state *)

Lemma filter_ne_not_elem (name : string) (groups : list string) :
  name ∉ groups → filter (λ g, g ≠ name) groups = groups.
Proof.
  induction groups as [|g groups IH]; intros Hn; [done|].
  apply not_elem_of_cons in Hn as [Hne Hn].
  rewrite filter_cons_True by done. by rewrite IH.
Qed.

Lemma filter_none {A : Type} (P : A → Prop) `{!∀ x, Decision (P x)} (l : list A) :
  (∀ x, x ∈ l → ¬ P x) → filter P l = [].
Proof.
  induction l as [|x l IH]; intros Hnone; [done|].
  rewrite filter_cons_False by (apply Hnone; by left).
  apply IH. intros y Hy. apply Hnone. by right.
Qed.

(** X6.  Spawning an object that is not yet a group and removing it again
    leaves the groups of the belief state exactly as they were; Giskard
    has received the [add_urdf] and the [remove_group] for its name. *)
Theorem spawn_then_remove (files : gmap string string) (now : Z)
    (o : Object.t) (c : GiskardCall) (s : Giskard) :
  spawn_call files now o = Returned c →
  giskard_name o ∉ group_names s →
  (spawn_object files now o;; remove_object o) s =
  (Returned tt, {| group_names := group_names s;
                   calls := calls s ++ [c; RemoveGroup (giskard_name o)] |}).
Proof.
  intros Hc Hnew. rewrite run_bind, spawn_object_run, Hc.
  unfold remove_object, remove_group, add_group. simpl.
  rewrite bool_decide_eq_false_2 by done.
  rewrite filter_app, filter_ne_not_elem by done.
  rewrite filter_cons_False by (by intros Hne; apply Hne).
  by rewrite filter_nil, app_nil_r, <-app_assoc.
Qed.

Lemma spawn_then_remove_witness :
  ∃ c, (spawn_object Example.files 0 Example.cup;; remove_object Example.cup)
         {| group_names := ["hsrb"]; calls := [] |}
       = (Returned tt, {| group_names := ["hsrb"];
                          calls := [c; RemoveGroup "cup_1"] |}).
Proof.
  assert (∃ c, spawn_call Example.files 0 Example.cup = Returned c) as [c Hc].
  { eexists. vm_compute. reflexivity. }
  exists c.
  apply (spawn_then_remove Example.files 0 Example.cup c
           {| group_names := ["hsrb"]; calls := [] |} Hc).
  vm_compute. intros Hin. apply list_elem_of_singleton in Hin. discriminate.
Defined.

(** X7.  [remove_object] removes the group of its object and of no other
    object: afterwards the Giskard name of the object is no group, and the
    Giskard name of an object with another name or another id is a group
    exactly when it was before. *)
Theorem remove_object_spares_others (o o' : Object.t) (s : Giskard) :
  (giskard_name o ∉ group_names (remove_object o s).2) ∧
  (Object.name o' ≠ Object.name o ∨ Object.id o' ≠ Object.id o →
   giskard_name o' ∈ group_names (remove_object o s).2 ↔
   giskard_name o' ∈ group_names s).
Proof.
  unfold remove_object, remove_group. simpl. split.
  - intros [Hne _]%list_elem_of_filter. by apply Hne.
  - intros Hother. rewrite list_elem_of_filter.
    split; [by intros [_ ?]|]. intros Hin. split; [|done].
    unfold giskard_name. intros Heq.
    apply split_at_last_underscore in Heq as [Hn Hi];
      [|apply pretty_Z_underscore_free..].
    apply (inj pretty) in Hi. by destruct Hother.
Qed.

(** X8.  [spawn_object], [spawn_mesh] and [update_pose] fail before they
    call Giskard: when one of them raises, Giskard is as it was.
    [spawn_urdf] opens the file before it looks at the pose: for a file
    that cannot be read it raises [FileNotFoundError], whatever the
    pose. *)
Theorem mutators_raise_before_calling (files : gmap string string) (now : Z)
    (s : Giskard) :
  (∀ o e s', spawn_object files now o s = (Raised e, s') → s' = s) ∧
  (∀ name path pose e s',
     spawn_mesh now name path pose s = (Raised e, s') → s' = s ∧ e = IndexError) ∧
  (∀ o e s', update_pose now o s = (Raised e, s') → s' = s ∧ e = IndexError) ∧
  (∀ name path pose,
     files !! path = None →
     spawn_urdf files now name path pose s = (Raised (FileNotFoundError path), s)).
Proof.
  split; [|split; [|split]].
  - intros o e s'. rewrite spawn_object_run.
    destruct (spawn_call files now o); by intros [= <-].
  - intros name path pose e s'. unfold spawn_mesh, eval. rewrite run_bind.
    destruct (make_pose_stamped now pose) as [p|e'] eqn:Hp; [done|].
    intros [= <- <-]. split; [done|]. by eapply make_pose_stamped_error.
  - intros o e s'. unfold update_pose, eval. rewrite run_bind.
    destruct (make_pose_stamped now (Object.pose o)) as [p|e'] eqn:Hp; [done|].
    intros [= <- <-]. split; [done|]. by eapply make_pose_stamped_error.
  - intros name path pose Hfile. unfold spawn_urdf, eval, read_file.
    by rewrite run_bind, Hfile.
Qed.

Lemma for_each_remove_group (l : list string) (s : Giskard) :
  for_each l (λ grp, remove_group grp;; mret tt) s =
  (Returned tt, {| group_names := filter (λ g, g ∉ l) (group_names s);
                   calls := calls s ++ (RemoveGroup <$> l) |}).
Proof.
  revert s. induction l as [|x l IH]; intros s; simpl.
  - rewrite run_ret, app_nil_r. f_equal. destruct s as [groups cs]. simpl. f_equal.
    symmetry. induction groups as [|g groups IHg]; [done|].
    rewrite filter_cons_True by apply not_elem_of_nil. by rewrite IHg.
  - rewrite run_bind, run_bind. unfold remove_group at 1. cbv beta iota.
    rewrite run_ret, IH. simpl. rewrite <-app_assoc. simpl.
    rewrite list_filter_filter. do 2 f_equal.
    apply list_filter_iff. intros g. rewrite not_elem_of_cons. tauto.
Qed.

(** X9.  In a BulletWorld without objects, [removing_of_objects] returns
    and has removed every group of the belief state, the robot's
    included: one [remove_group] call for each group name, and no group
    is left. *)
Theorem removing_of_objects_removes_everything (w : BulletWorld) (s : Giskard) :
  objects w = [] →
  ∃ cs, removing_of_objects w s =
        (Returned tt, {| group_names := [];
                         calls := calls s ++ GetGroupNames :: cs |}) ∧
        NoDup cs ∧
        ∀ c, c ∈ cs ↔ ∃ g, g ∈ group_names s ∧ c = RemoveGroup g.
Proof.
  intros Hempty. unfold removing_of_objects. rewrite run_bind.
  unfold get_group_names at 1. cbv beta iota. rewrite Hempty. simpl.
  rewrite run_bind, run_ret, for_each_remove_group. simpl.
  set (diff := elements (list_to_set (group_names s) ∖ ∅ : gset string)).
  assert (∀ g, g ∈ diff ↔ g ∈ group_names s) as Hdiff.
  { intros g. unfold diff.
    rewrite elem_of_elements, elem_of_difference, elem_of_list_to_set.
    split; [by intros [? _]|]. intros Hg. split; [done|]. apply not_elem_of_empty. }
  exists (RemoveGroup <$> diff). split; [|split].
  - rewrite <-app_assoc. simpl. do 2 f_equal.
    apply filter_none. intros g Hg Hn. by apply Hn, Hdiff.
  - apply NoDup_fmap_2; [by intros ?? [=]|]. apply NoDup_elements.
  - intros c. rewrite list_elem_of_fmap. split.
    + intros (g & -> & Hg). exists g. split; [by apply Hdiff|done].
    + intros (g & Hg & ->). exists g. split; [done|by apply Hdiff].
Qed.

Lemma removing_of_objects_removes_everything_witness :
  ∃ cs, removing_of_objects {| objects := []; robot := None; joint_states := ∅ |}
          {| group_names := ["hsrb"; "table_9"]; calls := [] |} =
        (Returned tt, {| group_names := []; calls := GetGroupNames :: cs |}).
Proof.
  destruct (removing_of_objects_removes_everything
              {| objects := []; robot := None; joint_states := ∅ |}
              {| group_names := ["hsrb"; "table_9"]; calls := [] |} eq_refl)
    as (cs & Hrun & _).
  by exists cs.
Defined.

(** ** The message builders *)

(** X10.  [make_pose_stamped] returns exactly when the position has at
    least three and the orientation at least four components, and raises
    [IndexError] otherwise.  The message is stamped with frame ["map"] and
    holds the first three and the first four components; what follows them
    is ignored. *)
Theorem make_pose_stamped_bounds (now : Z) (po qu : list float) :
  match make_pose_stamped now (po, qu) with
  | Returned p =>
      (3 ≤ length po)%nat ∧ (4 ≤ length qu)%nat ∧
      pose_header p = {| stamp := now; frame_id := "map" |} ∧
      (let '(x, y, z) := position p in take 3 po = [x; y; z]) ∧
      (let '(x, y, z, w) := orientation p in take 4 qu = [x; y; z; w]) ∧
      make_pose_stamped now (take 3 po, take 4 qu) = Returned p
  | Raised e => e = IndexError ∧ (length po < 3 ∨ length qu < 4)
  end.
Proof.
  destruct po as [|x [|y [|z po]]]; try (simpl; split; [done|left; lia]).
  destruct qu as [|a [|b [|c [|d qu]]]]; try (simpl; split; [done|right; lia]).
  simpl. repeat split; try done; lia.
Qed.

(** X11.  [make_point_stamped] and [make_vector_stamped] return exactly
    when the list has at least three components, [make_quaternion_stamped]
    when it has at least four; otherwise they raise [IndexError].  The
    messages are stamped with frame ["map"] and hold the first three (four)
    components. *)
Theorem make_stamped_bounds (now : Z) (l : list float) :
  match make_point_stamped now l with
  | Returned m =>
      (3 ≤ length l)%nat ∧ point_header m = {| stamp := now; frame_id := "map" |} ∧
      (let '(x, y, z) := point m in take 3 l = [x; y; z])
  | Raised e => e = IndexError ∧ length l < 3
  end ∧
  match make_vector_stamped now l with
  | Returned m =>
      (3 ≤ length l)%nat ∧ vector_header m = {| stamp := now; frame_id := "map" |} ∧
      (let '(x, y, z) := vector m in take 3 l = [x; y; z])
  | Raised e => e = IndexError ∧ length l < 3
  end ∧
  match make_quaternion_stamped now l with
  | Returned m =>
      (4 ≤ length l)%nat ∧ quaternion_header m = {| stamp := now; frame_id := "map" |} ∧
      (let '(x, y, z, w) := quaternion m in take 4 l = [x; y; z; w])
  | Raised e => e = IndexError ∧ length l < 4
  end.
Proof.
  destruct l as [|x [|y [|z [|w l]]]]; simpl; repeat split; try done; lia.
Qed.

(** ** Detection: which object is returned *)

Section FirstMatch.

Variable visible : BulletWorld → Object.t → bool.
Variable get_objects_by_type : BulletWorld → ObjectType → list Object.t.

Lemma HSRBDetecting_loop_Some (w : BulletWorld) (objs : list Object.t)
    (obj : Object.t) :
  HSRBDetecting_loop visible w objs = Returned (Some obj) ↔
  is_Some (robot w) ∧
  ∃ before after,
    objs = before ++ obj :: after ∧
    Forall (λ o, visible w o = false) before ∧ visible w obj = true.
Proof.
  destruct (robot w) as [r|] eqn:Hr.
  2: { split.
       - destruct objs; simpl; by rewrite ?Hr.
       - by intros [[r Hr'] _]. }
  induction objs as [|x objs IH]; simpl.
  - split; [done|]. intros (_ & before & after & Heq & _). by destruct before.
  - rewrite Hr. destruct (visible w x) eqn:Hx.
    + split.
      * intros [= ->]. split; [by eexists|]. exists [], objs. by repeat split.
      * intros (_ & [|x' before] & after & Heq & Hall & Hv); simplify_eq/=; [done|].
        apply Forall_cons in Hall as [Hf _]. congruence.
    + rewrite IH. split.
      * intros (Hrobot & before & after & -> & Hall & Hv). split; [done|].
        exists (x :: before), after. repeat split; [by constructor|done].
      * intros (Hrobot & [|x' before] & after & Heq & Hall & Hv);
          simplify_eq/=; [congruence|].
        apply Forall_cons in Hall as [_ Hall]. split; [done|].
        by exists before, after.
Qed.

(** X12.  [HSRBDetecting] returns an object exactly when the BulletWorld
    has a robot and the object is the first visible one among those
    [get_objects_by_type] gives for the requested type: the objects before
    it in that list are not visible. *)
Theorem HSRBDetecting_first_visible (w : BulletWorld) (object_type : ObjectType)
    (obj : Object.t) :
  HSRBDetecting_execute visible get_objects_by_type
    {| detecting_object_type := object_type |} w = Returned (Some obj) ↔
  is_Some (robot w) ∧
  ∃ before after,
    get_objects_by_type w object_type = before ++ obj :: after ∧
    Forall (λ o, visible w o = false) before ∧ visible w obj = true.
Proof. apply HSRBDetecting_loop_Some. Qed.

End FirstMatch.

(** X13.  [HSRBWorldStateDetecting] returns the first object of the
    requested type in the order of the BulletWorld, visible or not: no
    object before it has that type. *)
Theorem HSRBWorldStateDetecting_first (w : BulletWorld) (object_type : ObjectType)
    (obj : Object.t) :
  HSRBWorldStateDetecting_execute
    {| world_state_object_type := object_type |} w = Returned obj ↔
  ∃ before after,
    objects w = before ++ obj :: after ∧
    Forall (λ o, Object.type o ≠ object_type) before ∧
    Object.type obj = object_type.
Proof.
  unfold HSRBWorldStateDetecting_execute, subscript. simpl.
  induction (objects w) as [|x objs IH].
  - split; [done|]. intros (before & after & Heq & _). by destruct before.
  - rewrite filter_cons. case_decide as Hx; simpl.
    + split.
      * intros [= ->]. exists [], objs. by repeat split.
      * intros ([|x' before] & after & Heq & Hall & Ht); simplify_eq/=; [done|].
        by apply Forall_cons in Hall as [Hf _].
    + rewrite IH. split.
      * intros (before & after & -> & Hall & Ht).
        exists (x :: before), after. repeat split; [by constructor|done].
      * intros ([|x' before] & after & Heq & Hall & Ht); simplify_eq/=; try done.
        apply Forall_cons in Hall as [_ Hall]. by exists before, after.
Qed.

(** ** Moving joints by name *)

Lemma dict_snoc {V : Type} (pairs : list (string * V)) (k : string) (v : V) :
  dict (pairs ++ [(k, v)]) = <[k := v]> (dict pairs).
Proof. unfold dict. by rewrite foldl_app. Qed.

Lemma dict_lookup_None {V : Type} (pairs : list (string * V)) (k : string) :
  dict pairs !! k = None ↔ k ∉ pairs.*1.
Proof.
  induction pairs as [|[k' v'] pairs IH] using rev_ind.
  - split; [intros _; apply not_elem_of_nil|done].
  - rewrite dict_snoc, fmap_app, not_elem_of_app. simpl.
    rewrite list_elem_of_singleton.
    destruct (decide (k' = k)) as [->|Hne].
    + rewrite lookup_insert_eq. split; [done|]. by intros [_ ?].
    + rewrite lookup_insert_ne, IH by done. split; [|by intros [? _]].
      intros ?. split; [done|]. by intros ->.
Qed.

Lemma dict_lookup_last {V : Type} (before after : list (string * V))
    (k : string) (v : V) :
  k ∉ after.*1 → dict (before ++ (k, v) :: after) !! k = Some v.
Proof.
  induction after as [|[k' v'] after IH] using rev_ind; intros Hlast.
  - by rewrite dict_snoc, lookup_insert_eq.
  - rewrite fmap_app, not_elem_of_app in Hlast. destruct Hlast as [Hlast Hk'].
    simpl in Hk'. rewrite list_elem_of_singleton in Hk'.
    rewrite app_comm_cons, app_assoc, dict_snoc, lookup_insert_ne by done.
    by apply IH.
Qed.

Lemma fst_zip_take {A B : Type} (l : list A) (k : list B) :
  (zip l k).*1 = take (length k) l.
Proof.
  revert k. induction l as [|x l IH]; intros [|y k]; simpl; try done.
  by rewrite IH.
Qed.

(** X14.  [HSRBMoveJoints] pairs names and positions up to the shorter of
    the two lists.  Given a robot, a joint that is not among the paired
    names keeps its position, names without a position included; a joint
    named more than once gets the position paired with its last
    occurrence. *)
Theorem HSRBMoveJoints_sets_paired (desig : MoveJointsMotion) (w : BulletWorld) :
  is_Some (robot w) →
  ∃ w', HSRBMoveJoints_execute desig w = Returned w' ∧
        objects w' = objects w ∧ robot w' = robot w ∧
        (∀ j, j ∉ take (length (positions desig)) (names desig) →
              joint_states w' !! j = joint_states w !! j) ∧
        (∀ before after j v,
           zip (names desig) (positions desig) = before ++ (j, v) :: after →
           j ∉ after.*1 → joint_states w' !! j = Some v).
Proof.
  intros [r Hr]. unfold HSRBMoveJoints_execute, set_joint_states. rewrite Hr.
  eexists. split; [done|]. simpl. repeat split.
  - intros j Hj. rewrite <-fst_zip_take in Hj.
    apply dict_lookup_None in Hj. by rewrite lookup_union_r.
  - intros before after j v Hzip Hlast.
    rewrite Hzip. apply lookup_union_Some_l. by apply dict_lookup_last.
Qed.

(** Two names for three positions, the first name given twice: the third
    position is ignored and the second one wins. *)
Lemma HSRBMoveJoints_sets_paired_witness :
  ∃ w', HSRBMoveJoints_execute
          {| names := ["arm_lift_joint"; "arm_lift_joint"];
             positions := [PrimFloat.zero; PrimFloat.one; PrimFloat.zero] |}
          Example.world = Returned w' ∧
        joint_states w' !! "arm_lift_joint" = Some PrimFloat.one.
Proof.
  destruct (HSRBMoveJoints_sets_paired
              {| names := ["arm_lift_joint"; "arm_lift_joint"];
                 positions := [PrimFloat.zero; PrimFloat.one; PrimFloat.zero] |}
              Example.world) as (w' & Hrun & _ & _ & _ & Hlast).
  - by eexists.
  - exists w'. split; [done|].
    apply (Hlast [("arm_lift_joint", PrimFloat.zero)] []); [reflexivity|].
    apply not_elem_of_nil.
Defined.

(** ** The process modules of the real robot *)

Section RealProcessModules.

Variable robot_name : string.
Variable launch_groups : list string.
Variable files : gmap string string.
Variable now : Z.
Variable base_link : string.
Variable get_tool_frame : string → string.
Variable transform_pose : list float * list float → string → list float * list float.

Local Abbreviation sync := (sync_worlds robot_name launch_groups files now).
Local Abbreviation method := (achieve robot_name launch_groups files now).

(** A goal method whose result is dropped: the planner has no say in what
    the caller sees. *)
Lemma achieve_drop_result (planner : list GiskardCall → MoveResult)
    (w : BulletWorld) (req : GoalRequest) (s : Giskard) :
  (method planner w req;; mret tt) s =
  match sync w s with
  | (Returned _, s1) =>
      match goal_call now req with
      | Returned g =>
          (Returned tt, {| group_names := group_names s1;
                           calls := calls s1 ++ [g; PlanAndExecute] |})
      | Raised e => (Raised e, s1)
      end
  | (Raised e, s1) => (Raised e, s1)
  end.
Proof.
  rewrite run_bind, achieve_goal_sequence. unfold goal_sequence.
  destruct (sync w s) as [[[]|e] s1]; [|done].
  by destruct (goal_call now req).
Qed.

Lemma achieve_calls_any (planner : list GiskardCall → MoveResult)
    (w : BulletWorld) (req : GoalRequest) (s : Giskard) :
  ∃ cs, calls ((method planner w req;; mret tt) s).2 = calls s ++ cs ∧
        Forall (λ c, is_collision_policy c = false) cs.
Proof.
  rewrite achieve_drop_result.
  destruct (sync w s) as [o s1] eqn:Hsync.
  apply sync_worlds_outcome in Hsync
    as (spawned & rest & cs & added & _ & Hall & Hcs & _).
  assert (Forall (λ c, is_collision_policy c = false)
            (sync_queries robot_name w s ++ cs)) as Hquiet.
  { apply Forall_app. split.
    - unfold sync_queries. case_decide; by repeat constructor.
    - clear Hcs. induction Hall as [|x c ?? Hc _ IH]; constructor; [|done].
      by apply spawn_call_AddUrdf in Hc as (u & p & _ & _ & ->). }
  destruct o as [[]|e]; [|by eexists].
  destruct (goal_call now req) as [g|e] eqn:Hgoal; [|by eexists].
  apply goal_call_is_goal in Hgoal as [_ Hg].
  exists ((sync_queries robot_name w s ++ cs) ++ [g; PlanAndExecute]). simpl.
  split; [by rewrite Hcs, <-!app_assoc|].
  apply Forall_app. split; [done|]. by repeat constructor.
Qed.

(** X15.  The process modules of the real robot drop the result of the
    goal: what they return and what Giskard has received do not depend on
    the answer of the planner, be it success, failure or rejection. *)
Theorem real_modules_drop_result (planner planner' : list GiskardCall → MoveResult)
    (w : BulletWorld) (s : Giskard) :
  (∀ d, HSRBNavigationReal_execute robot_name launch_groups files now planner
          base_link d w s
        = HSRBNavigationReal_execute robot_name launch_groups files now planner'
            base_link d w s) ∧
  (∀ d, HSRBMoveTCPReal_execute robot_name launch_groups files now planner
          base_link get_tool_frame transform_pose d w s
        = HSRBMoveTCPReal_execute robot_name launch_groups files now planner'
            base_link get_tool_frame transform_pose d w s) ∧
  (∀ d, HSRBMoveArmJointsReal_execute robot_name launch_groups files now planner d w s
        = HSRBMoveArmJointsReal_execute robot_name launch_groups files now planner'
            d w s) ∧
  (∀ d, HSRBMoveJointsReal_execute robot_name launch_groups files now planner d w s
        = HSRBMoveJointsReal_execute robot_name launch_groups files now planner'
            d w s) ∧
  (∀ d, HSRBOpenReal_execute robot_name launch_groups files now planner
          get_tool_frame d w s
        = HSRBOpenReal_execute robot_name launch_groups files now planner'
            get_tool_frame d w s) ∧
  (∀ d, HSRBCloseReal_execute robot_name launch_groups files now planner
          get_tool_frame d w s
        = HSRBCloseReal_execute robot_name launch_groups files now planner'
            get_tool_frame d w s).
Proof.
  assert (∀ req s0, (method planner w req;; mret tt) s0
                    = (method planner' w req;; mret tt) s0) as Hdrop.
  { intros req s0. by rewrite !achieve_drop_result. }
  repeat split; intros d.
  - apply (Hdrop (CartesianGoal (move_target d) base_link "map")).
  - unfold HSRBMoveTCPReal_execute. rewrite !run_bind.
    destruct (allow_gripper_collision d); simpl.
    + by destruct (eval (giskard_getattr "allow_gripper_collision") s) as [[|] ?].
    + apply (Hdrop (CartesianGoal (transform_pose (tcp_target d) "map")
                    (get_tool_frame (tcp_arm d)) base_link)).
  - rewrite !HSRBMoveArmJointsReal_run, !run_bind.
    destruct (avoid_all_collisions s) as [[|] s0]; [|done].
    apply (Hdrop (JointGoal (default ∅ (left_arm_poses d)))).
  - unfold HSRBMoveJointsReal_execute. rewrite !run_bind.
    destruct (avoid_all_collisions s) as [[|] s0]; [|done].
    apply (Hdrop (JointGoal (dict (zip (names d) (positions d))))).
  - apply (Hdrop (OpenContainerGoal (get_tool_frame (container_arm d))
                    (object_part_name d))).
  - apply (Hdrop (CloseContainerGoal (get_tool_frame (container_arm d))
                    (object_part_name d))).
Qed.

(** X16.  [HSRBMoveArmJointsReal] and [HSRBMoveJointsReal] set the
    avoid-all collision policy before anything else, so also when the
    synchronization that follows raises, and set no other policy.
    [HSRBNavigationReal], [HSRBOpenReal] and [HSRBCloseReal] never set a
    collision policy. *)
Theorem real_modules_collision_policy (planner : list GiskardCall → MoveResult)
    (w : BulletWorld) (s : Giskard) :
  (∀ d, ∃ cs,
     calls (HSRBMoveArmJointsReal_execute robot_name launch_groups files now
              planner d w s).2 = calls s ++ AvoidAllCollisions :: cs ∧
     Forall (λ c, is_collision_policy c = false) cs) ∧
  (∀ d, ∃ cs,
     calls (HSRBMoveJointsReal_execute robot_name launch_groups files now
              planner d w s).2 = calls s ++ AvoidAllCollisions :: cs ∧
     Forall (λ c, is_collision_policy c = false) cs) ∧
  (∀ d, ∃ cs,
     calls (HSRBNavigationReal_execute robot_name launch_groups files now
              planner base_link d w s).2 = calls s ++ cs ∧
     Forall (λ c, is_collision_policy c = false) cs) ∧
  (∀ d, ∃ cs,
     calls (HSRBOpenReal_execute robot_name launch_groups files now
              planner get_tool_frame d w s).2 = calls s ++ cs ∧
     Forall (λ c, is_collision_policy c = false) cs) ∧
  (∀ d, ∃ cs,
     calls (HSRBCloseReal_execute robot_name launch_groups files now
              planner get_tool_frame d w s).2 = calls s ++ cs ∧
     Forall (λ c, is_collision_policy c = false) cs).
Proof.
  assert (∀ req, ∃ cs,
            calls ((avoid_all_collisions;; method planner w req;; mret tt) s).2
            = calls s ++ AvoidAllCollisions :: cs ∧
            Forall (λ c, is_collision_policy c = false) cs) as Hfirst.
  { intros req. rewrite run_bind. unfold avoid_all_collisions. rewrite run_call.
    destruct (achieve_calls_any planner w req
                {| group_names := group_names s;
                   calls := calls s ++ [AvoidAllCollisions] |}) as (cs & Hcs & Hall).
    exists cs. split; [|done]. rewrite Hcs. simpl. by rewrite <-app_assoc. }
  split; [|split; [|split; [|split]]]; intros d.
  - rewrite HSRBMoveArmJointsReal_run.
    apply (Hfirst (JointGoal (default ∅ (left_arm_poses d)))).
  - apply (Hfirst (JointGoal (dict (zip (names d) (positions d))))).
  - apply (achieve_calls_any planner w
             (CartesianGoal (move_target d) base_link "map")).
  - apply (achieve_calls_any planner w
             (OpenContainerGoal (get_tool_frame (container_arm d))
                (object_part_name d))).
  - apply (achieve_calls_any planner w
             (CloseContainerGoal (get_tool_frame (container_arm d))
                (object_part_name d))).
Qed.

(** X17.  [HSRBMoveGripperReal] calls [giskard.achieve_gripper_motion_goal]
    and [HSRBMoveTCPReal], for a motion that allows gripper collisions,
    calls [giskard.allow_gripper_collision]; the module [giskard] binds
    neither name.  Both raise [AttributeError] and Giskard receives no
    call. *)
Theorem real_modules_missing_functions (planner : list GiskardCall → MoveResult)
    (w : BulletWorld) (s : Giskard) :
  (∀ d, HSRBMoveGripperReal_execute d s
        = (Raised (AttributeError "achieve_gripper_motion_goal"), s)) ∧
  (∀ d, allow_gripper_collision d = true →
        HSRBMoveTCPReal_execute robot_name launch_groups files now planner
          base_link get_tool_frame transform_pose d w s
        = (Raised (AttributeError "allow_gripper_collision"), s)).
Proof.
  split; [done|]. intros d Hallow.
  unfold HSRBMoveTCPReal_execute. by rewrite Hallow.
Qed.

End RealProcessModules.

(** ** The simulated process modules that set joints *)

(** X18.  [HSRBMoveArmJoints] skips an arm whose targets are [None] or
    empty: a motion without targets returns with the world as it is, robot
    or no robot.  With targets for an arm and no robot in the BulletWorld
    it raises [AttributeError]. *)
Theorem HSRBMoveArmJoints_without_targets (desig : MoveArmJointsMotion)
    (w : BulletWorld) :
  (truthy (right_arm_poses desig) = false → truthy (left_arm_poses desig) = false →
   HSRBMoveArmJoints_execute desig w = Returned w) ∧
  (robot w = None →
   truthy (right_arm_poses desig) || truthy (left_arm_poses desig) = true →
   HSRBMoveArmJoints_execute desig w = Raised (AttributeError "set_joint_states")).
Proof.
  unfold HSRBMoveArmJoints_execute, set_joint_states. split.
  - by intros -> ->.
  - intros Hr Hsome.
    destruct (truthy (right_arm_poses desig)), (truthy (left_arm_poses desig));
      simpl in *; rewrite ?Hr; simpl; done.
Qed.

Lemma HSRBMoveArmJoints_without_targets_witness :
  HSRBMoveArmJoints_execute
    {| left_arm_poses := Some ∅; right_arm_poses := None |}
    {| objects := []; robot := None; joint_states := ∅ |}
  = Returned {| objects := []; robot := None; joint_states := ∅ |} ∧
  HSRBMoveArmJoints_execute Example.motion
    {| objects := []; robot := None; joint_states := ∅ |}
  = Raised (AttributeError "set_joint_states").
Proof.
  split.
  - apply (HSRBMoveArmJoints_without_targets
             {| left_arm_poses := Some ∅; right_arm_poses := None |}
             {| objects := []; robot := None; joint_states := ∅ |});
      reflexivity.
  - apply (HSRBMoveArmJoints_without_targets Example.motion
             {| objects := []; robot := None; joint_states := ∅ |});
      reflexivity.
Defined.

Lemma set_each_joint_run (items : list (string * float)) (w : BulletWorld) :
  is_Some (robot w) → NoDup items.*1 →
  set_each_joint items w =
  Returned {| objects := objects w; robot := robot w;
              joint_states := list_to_map items ∪ joint_states w |}.
Proof.
  intros [r Hr]. revert w Hr.
  induction items as [|[joint pose] items IH]; intros w Hr Hnodup; simpl.
  - rewrite (left_id_L ∅ (∪)). by destruct w.
  - apply NoDup_cons in Hnodup as [Hfresh Hnodup].
    unfold set_joint_state. rewrite Hr. simpl.
    rewrite IH by done. simpl. do 2 f_equal.
    rewrite <-insert_union_r, insert_union_l; [done|].
    by apply not_elem_of_list_to_map_1.
Qed.

(** X19.  [_park_arms] parks the left arm only: for any other arm it
    leaves the world as it is.  For the left arm it gives every joint of
    the park configuration its position there and leaves the other joints
    alone, as [HSRBMoveGripper] does with the joints of the gripper
    configuration. *)
Theorem park_arms_left_only
    (get_static_joint_chain get_static_gripper_chain : string → string → gmap string float)
    (w : BulletWorld) :
  (∀ arm, arm ≠ "left" → _park_arms get_static_joint_chain arm w = Returned w) ∧
  (is_Some (robot w) →
   _park_arms get_static_joint_chain "left" w
   = Returned {| objects := objects w; robot := robot w;
                 joint_states :=
                   get_static_joint_chain "left" "park" ∪ joint_states w |}) ∧
  (is_Some (robot w) →
   ∀ desig, HSRBMoveGripper_execute get_static_gripper_chain desig w
            = Returned {| objects := objects w; robot := robot w;
                          joint_states :=
                            get_static_gripper_chain (gripper desig) (motion desig)
                            ∪ joint_states w |}).
Proof.
  split; [|split].
  - intros arm Harm. unfold _park_arms. by rewrite bool_decide_eq_false_2.
  - intros Hrobot. unfold _park_arms. rewrite bool_decide_eq_true_2 by done.
    rewrite set_each_joint_run, list_to_map_to_list;
      [done|done|apply NoDup_fst_map_to_list].
  - intros Hrobot desig. unfold HSRBMoveGripper_execute.
    rewrite set_each_joint_run, list_to_map_to_list;
      [done|done|apply NoDup_fst_map_to_list].
Qed.

(** ** What [sync_worlds] sends, and goals that cannot be built *)

(** X20.  Every [add_urdf] that [sync_worlds] sends, in a run that returns
    or raises, is for an object of the BulletWorld that is not the robot
    and whose Giskard name was missing from the belief state the loop
    started from; it carries the contents of the URDF file of that object
    and its stamped pose.  The robot is never spawned. *)
Theorem sync_worlds_spawns_missing_objects (robot_name : string)
    (launch_groups : list string) (files : gmap string string) (now : Z)
    (w : BulletWorld) (s : Giskard)
    (name urdf_string : string) (pose : PoseStamped) :
  AddUrdf name urdf_string pose
    ∈ drop (length (calls s))
           (calls (sync_worlds robot_name launch_groups files now w s).2) →
  ∃ o, o ∈ objects w ∧ is_robot w o = false ∧ name = giskard_name o ∧
       (name ∉ sync_base robot_name launch_groups w s) ∧
       files !! Object.path o = Some urdf_string ∧
       make_pose_stamped now (Object.pose o) = Returned pose.
Proof.
  destruct (sync_worlds robot_name launch_groups files now w s) as [o s'] eqn:Hrun.
  apply sync_worlds_outcome in Hrun
    as (spawned & rest & cs & added & Hsp & Hall & Hcs & _).
  simpl. rewrite Hcs, drop_app_length. intros [Hin|Hin]%elem_of_app.
  { unfold sync_queries in Hin. case_decide;
      repeat (apply elem_of_cons in Hin as [?|Hin]; [done|]);
      by apply elem_of_nil in Hin. }
  apply list_elem_of_lookup in Hin as [i Hi].
  destruct (Forall2_lookup_r _ _ _ _ _ Hall Hi) as (x & Hx & Hc).
  apply spawn_call_AddUrdf in Hc as (u & p & Hfile & Hpose & [= -> -> ->]).
  assert (x ∈ to_spawn w (sync_base robot_name launch_groups w s) (objects w))
    as Hspawn.
  { rewrite Hsp. apply elem_of_app. left. by eapply list_elem_of_lookup_2. }
  apply list_elem_of_filter in Hspawn as [[Hr Hn] Hobj].
  by exists x.
Qed.

Lemma sync_worlds_spawns_missing_objects_witness :
  ∃ pose o,
    o ∈ objects Example.world ∧ is_robot Example.world o = false ∧
    "cup_1" = giskard_name o ∧
    make_pose_stamped 0 (Object.pose o) = Returned pose.
Proof.
  assert (∃ pose, AddUrdf "cup_1" "<robot name='cup'/>" pose
                  ∈ drop (length (calls {| group_names := ["hsrb"]; calls := [] |}))
                      (calls (sync_worlds "hsrb" ["hsrb"] Example.files 0 Example.world
                                {| group_names := ["hsrb"]; calls := [] |}).2))
    as [pose Hin].
  { eexists. vm_compute. do 2 apply list_elem_of_further. apply list_elem_of_here. }
  destruct (sync_worlds_spawns_missing_objects _ _ _ _ _ _ _ _ _ Hin)
    as (o & Ho & Hr & Hname & _ & _ & Hpose).
  by exists pose, o.
Defined.

Lemma goal_call_error (now : Z) (req : GoalRequest) (e : PyError) :
  goal_call now req = Raised e → e = IndexError.
Proof.
  destruct req as [?|[po qu] ??|[po qu] ??|?|?|?|?|?|?]; simpl; try done;
    unfold make_pose_stamped, make_point_stamped, make_quaternion_stamped,
      make_vector_stamped;
    repeat match goal with
      | |- context [subscript ?l ?i] =>
          let H := fresh in
          destruct (subscript l i) eqn:H; simpl;
          [|apply subscript_error in H; by intros [= <-]]
      end;
    done.
Qed.

(** X21.  A goal whose pose, point, quaternion or normal is too short to
    be stamped raises [IndexError], and it does so after the belief state
    has been synchronized: Giskard has received the calls of
    [sync_worlds], but neither a goal nor [plan_and_execute].  Joint and
    container goals need no message and never fail this way. *)
Theorem incomplete_goal_raises_after_sync (robot_name : string)
    (launch_groups : list string) (files : gmap string string) (now : Z)
    (planner : list GiskardCall → MoveResult)
    (w : BulletWorld) (req : GoalRequest) (s : Giskard) :
  (∀ e, goal_call now req = Raised e →
        e = IndexError ∧
        achieve robot_name launch_groups files now planner w req s
        = match sync_worlds robot_name launch_groups files now w s with
          | (Returned _, s1) => (Raised IndexError, s1)
          | (Raised e', s1) => (Raised e', s1)
          end) ∧
  (match req with
   | JointGoal _ | OpenContainerGoal _ _ | CloseContainerGoal _ _ => True
   | _ => False
   end → ∃ g, goal_call now req = Returned g).
Proof.
  split.
  - intros e Hgoal.
    apply goal_call_error in Hgoal as Herror. subst e.
    split; [done|]. rewrite achieve_goal_sequence. unfold goal_sequence.
    rewrite Hgoal. by destruct (sync_worlds _ _ _ _ _ _) as [[[]|?] ?].
  - destruct req; try done; intros _; by eexists.
Qed.

Lemma incomplete_goal_raises_after_sync_witness :
  goal_call 0 (TranslationGoal [PrimFloat.one; PrimFloat.zero] "hand" "map")
  = Raised IndexError ∧
  achieve "hsrb" ["hsrb"] Example.files 0 Example.planner Example.world
    (TranslationGoal [PrimFloat.one; PrimFloat.zero] "hand" "map")
    {| group_names := ["hsrb"; "cup_1"; "bowl_2"]; calls := [] |}
  = (Raised IndexError,
     {| group_names := ["hsrb"; "cup_1"; "bowl_2"];
        calls := [GetGroupNames; GetGroupNames] |}).
Proof.
  split; [reflexivity|].
  destruct (incomplete_goal_raises_after_sync "hsrb" ["hsrb"] Example.files 0
              Example.planner Example.world
              (TranslationGoal [PrimFloat.one; PrimFloat.zero] "hand" "map")
              {| group_names := ["hsrb"; "cup_1"; "bowl_2"]; calls := [] |})
    as [Hraise _].
  destruct (Hraise IndexError eq_refl) as [_ ->]. vm_compute. reflexivity.
Defined.
